(** * executor_runner: the static two-tier memory discipline of the runner

    A shallow embedding of [examples/executor_runner/executor_runner.cpp]:
    the command-line [main] and the JNI entry point [PytorchJni::forward].
    Both load a program, size a metadata arena over the static pool
    [method_allocator_pool], allocate one buffer per memory-planned id,
    assemble a [MemoryManager], bind the first method and run it once.

    The program parser, the execution engine and the C++ allocation
    function are collaborators of the runner: they appear as the fields of
    a [Runtime] record and as Section variables, and the runner's own
    statements are written over them in a small monad that threads the
    memory, the set of live heap blocks and the list of emitted events. *)

From Stdlib Require Import ZArith List Lia Bool String Permutation.
Import ListNotations.
Local Open Scope Z_scope.

(** ** Integers, spans and memory *)

(** [size_t] is 64 bits wide; [static_cast<size_t>] wraps. *)
Definition size_t_modulus : Z := 2 ^ 64.
Definition to_size_t (z : Z) : Z := z mod size_t_modulus.

(** [4 * 1024U * 1024U] is computed in 32-bit unsigned arithmetic. *)
Definition unsigned_modulus : Z := 2 ^ 32.
Definition sizeof_method_allocator_pool : Z :=
  (4 * 1024 * 1024) mod unsigned_modulus.

(** [Span<uint8_t>]: a pointer and a length. *)
Record Span := mkSpan { span_data : Z; span_size : Z }.

Definition in_span (s : Span) (x : Z) : Prop :=
  span_data s <= x < span_data s + span_size s.

Definition disjoint (s t : Span) : Prop :=
  forall x, in_span s x -> in_span t x -> False.

Definition Span_eqb (s t : Span) : bool :=
  (span_data s =? span_data t) && (span_size s =? span_size t).

(** Byte-addressed memory. *)
Definition Memory := Z -> Byte.byte.

Definition store (m : Memory) (a : Z) (b : Byte.byte) : Memory :=
  fun x => if x =? a then b else m x.

Definition store_all (m : Memory) (ws : list (Z * Byte.byte)) : Memory :=
  fold_left (fun m' w => store m' (fst w) (snd w)) ws m.

Definition fill (m : Memory) (a n : Z) (b : Byte.byte) : Memory :=
  fun x => if (a <=? x) && (x <? a + n) then b else m x.

(** ** Error codes and [Result<T>] *)

Definition Error := Z.
Definition Error_Ok : Error := 0.

Inductive Result (T : Type) : Type :=
| Ok (value : T)
| Failed (error : Error).
Arguments Ok {T} value.
Arguments Failed {T} error.

Definition is_ok {T} (r : Result T) : bool :=
  match r with Ok _ => true | Failed _ => false end.

Definition error_of {T} (r : Result T) : Error :=
  match r with Ok _ => Error_Ok | Failed e => e end.

(** ** The metadata arena *)

Inductive ArenaError := OutOfArenaSpace.

(** [MemoryAllocator(size, base)]: the block it hands memory out of, the
    number of bytes handed out so far, and the profiling name. *)
Record MemoryAllocator := mkMemoryAllocator {
  ma_size : Z;
  ma_base : Z;
  ma_used : Z;
  ma_profiling : option string
}.

Definition MemoryAllocator_new (size base : Z) : MemoryAllocator :=
  mkMemoryAllocator size base 0 None.

Definition enable_profiling (name : string) (a : MemoryAllocator)
  : MemoryAllocator :=
  mkMemoryAllocator (ma_size a) (ma_base a) (ma_used a) (Some name).

Definition arena_span (a : MemoryAllocator) : Span :=
  mkSpan (ma_base a) (ma_size a).

(** Modelled from the spec: [MemoryAllocator::allocate] is declared in
    [runtime/core/memory_allocator.h], which is not among the sources of
    the runner.  Section 4.1 gives its contract,
    [allocate(n_bytes) -> region | Fail(OutOfArenaSpace)], monotonic, and
    section 9 its strategy: a fixed owned block plus an offset counter, with
    an explicit out-of-space failure. *)
Definition allocate (a : MemoryAllocator) (n : Z)
  : (Span + ArenaError) * MemoryAllocator :=
  if n <=? ma_size a - ma_used a
  then (inl (mkSpan (ma_base a + ma_used a) n),
        mkMemoryAllocator (ma_size a) (ma_base a) (ma_used a + n)
                          (ma_profiling a))
  else (inr OutOfArenaSpace, a).

(** A sequence of requests served in order, each against what the earlier
    ones left. *)
Fixpoint allocate_seq (a : MemoryAllocator) (reqs : list Z)
  : list (Span + ArenaError) * MemoryAllocator :=
  match reqs with
  | [] => ([], a)
  | n :: rest =>
      let '(r, a1) := allocate a n in
      let '(rs, a2) := allocate_seq a1 rest in
      (r :: rs, a2)
  end.

(** The bytes a sequence of requests asks for in total. *)
Definition total_requested (reqs : list Z) : Z := fold_right Z.add 0 reqs.

Definition is_region (r : Span + ArenaError) : Prop :=
  exists region, r = inl region.

(** Of two results, the earlier region ends where the later begins, or
    before. *)
Definition region_before (x y : Span + ArenaError) : Prop :=
  match x, y with
  | inl rx, inl ry => span_data rx + span_size rx <= span_data ry
  | _, _ => True
  end.

(** Modelled from the spec: the high-water mark of the instrumentation mode
    of section 4.1, the bytes actually consumed. *)
Definition high_water_mark (a : MemoryAllocator) : Z := ma_used a.

(** ** The planned buffers and the memory manager *)

(** [HierarchicalAllocator(Span<Span<uint8_t>>)]: the planned spans, by
    position. *)
Record HierarchicalAllocator := mkHierarchicalAllocator {
  ha_buffers : list Span
}.

(** [MemoryManager(&method_allocator, &planned_memory)]. *)
Record MemoryManager := mkMemoryManager {
  method_allocator : MemoryAllocator;
  planned_memory : HierarchicalAllocator
}.

(** [MethodMeta]: what the method metadata reports. *)
Record MethodMeta := mkMethodMeta {
  num_memory_planned_buffers : Z;
  memory_planned_buffer_size : Z -> Result Z
}.

(** ** What a run emits and how it can end *)

Inductive LogLevel := Info | LogError.

Inductive Message :=
| Msg_extra_args (msg : string)
| Msg_failed_to_parse (model_path : string)
| Msg_model_loaded (model_path : string)
| Msg_using_method (method_name : string)
| Msg_setting_up (id buffer_size : Z)
| Msg_method_loaded
| Msg_inputs_prepared
| Msg_executed
| Msg_outputs (n : Z).

(** The [ET_CHECK]s of the runner, by what they report. *)
Inductive Check :=
| Chk_loader (e : Error)
| Chk_no_methods
| Chk_method_meta (method_name : string) (e : Error)
| Chk_load_method (method_name : string) (e : Error)
| Chk_execute (method_name : string) (status : Error)
| Chk_get_outputs.

(** Where the value of a [Result] is taken. *)
Inductive Site :=
| At_loader
| At_program
| At_method_name
| At_method_meta
| At_buffer_size (id : Z)
| At_method.

Inductive Stop :=
| Aborted (c : Check)               (* a failed ET_CHECK *)
| FailedResultAccess (site : Site)   (* the value of a failed Result is taken *)
| bad_alloc                          (* operator new[] could not serve *)
| NullStream (path : string).        (* fwrite on the stream of a failed fopen *)

(** The calls the runner makes on its collaborators and what it prints.
    The two calls made with the assembled memory manager in reach carry
    the manager as it is at that moment. *)
Inductive Event (EValue : Type) :=
| ET_LOG (level : LogLevel) (msg : Message)
| Call_runtime_init
| Call_FileDataLoader_from (model_path : string)
| Call_Program_load
| Call_get_method_name (index : Z)
| Call_method_meta (method_name : string)
| Call_load_method (method_name : string) (memory_manager : MemoryManager)
| Call_PrepareInputTensors
| Call_execute (memory_manager : MemoryManager)
| Call_outputs_size
| Call_get_outputs (n : Z)
| Print_evalue_edge_items (n : Z)
| Print_output (i : Z) (v : EValue)
| Call_DUMP_PROFILE_RESULTS
| Write_file (path : string) (data : list Byte.byte)
| Call_FreeInputs
| Call_optionalNull.
Arguments ET_LOG {EValue}.
Arguments Call_runtime_init {EValue}.
Arguments Call_FileDataLoader_from {EValue}.
Arguments Call_Program_load {EValue}.
Arguments Call_get_method_name {EValue}.
Arguments Call_method_meta {EValue}.
Arguments Call_load_method {EValue}.
Arguments Call_PrepareInputTensors {EValue}.
Arguments Call_execute {EValue}.
Arguments Call_outputs_size {EValue}.
Arguments Call_get_outputs {EValue}.
Arguments Print_evalue_edge_items {EValue}.
Arguments Print_output {EValue}.
Arguments Call_DUMP_PROFILE_RESULTS {EValue}.
Arguments Write_file {EValue}.
Arguments Call_FreeInputs {EValue}.
Arguments Call_optionalNull {EValue}.

(** The collaborators of the runner: the file loader, the program parser,
    the method metadata, the execution engine, the profiler and the Java
    side.  [load_method_requests] lists the sizes the engine asks the method
    allocator for while it loads a method, [MemoryAllocationFailed] is the
    error it reports when one of them is refused.  [fopen] tells whether
    [fopen(path, "w+")] gives a stream. *)
Record Runtime (Loader Program Method EValue JEValue : Type) := mkRuntime {
  FileDataLoader_from : string -> Result Loader;
  Program_load : Loader -> Result Program;
  get_method_name : Program -> Z -> Result string;
  method_meta : Program -> string -> Result MethodMeta;
  load_method_requests : Program -> string -> list Z;
  load_method_result : Program -> string -> Result Method;
  MemoryAllocationFailed : Error;
  execute : Method -> Error;
  outputs_size : Method -> Z;
  get_outputs_status : Method -> Z -> Error;
  get_outputs_value : Method -> Z -> EValue;
  prof_data : list Byte.byte;
  fopen : string -> bool;
  jMethodOptionalNull : JEValue
}.
Arguments FileDataLoader_from {Loader Program Method EValue JEValue}.
Arguments Program_load {Loader Program Method EValue JEValue}.
Arguments get_method_name {Loader Program Method EValue JEValue}.
Arguments method_meta {Loader Program Method EValue JEValue}.
Arguments load_method_requests {Loader Program Method EValue JEValue}.
Arguments load_method_result {Loader Program Method EValue JEValue}.
Arguments MemoryAllocationFailed {Loader Program Method EValue JEValue}.
Arguments execute {Loader Program Method EValue JEValue}.
Arguments outputs_size {Loader Program Method EValue JEValue}.
Arguments get_outputs_status {Loader Program Method EValue JEValue}.
Arguments get_outputs_value {Loader Program Method EValue JEValue}.
Arguments prof_data {Loader Program Method EValue JEValue}.
Arguments fopen {Loader Program Method EValue JEValue}.
Arguments jMethodOptionalNull {Loader Program Method EValue JEValue}.

(** ** The monad of the runner *)

(** The memory and the heap blocks that are live. *)
Record State := mkState {
  memory : Memory;
  live : list Span
}.

Record Run (E A : Type) := mkRun {
  outcome : A + Stop;
  final : State;
  events : list E
}.
Arguments mkRun {E A}.
Arguments outcome {E A}.
Arguments final {E A}.
Arguments events {E A}.

Definition M (E A : Type) : Type := State -> Run E A.

Definition ret {E A} (a : A) : M E A := fun s => mkRun (inl a) s [].

Definition bind {E A B} (c : M E A) (k : A -> M E B) : M E B :=
  fun s =>
    let r := c s in
    match outcome r with
    | inl a =>
        let r' := k a (final r) in
        mkRun (outcome r') (final r') (events r ++ events r')
    | inr e => mkRun (inr e) (final r) (events r)
    end.

Definition stop {E A} (e : Stop) : M E A := fun s => mkRun (inr e) s [].

Definition emit {E} (ev : E) : M E unit := fun s => mkRun (inl tt) s [ev].

Declare Scope runner_scope.
Delimit Scope runner_scope with runner.
Notation "x <- c ;; k" := (bind c (fun x => k))
  (at level 61, c at next level, right associativity) : runner_scope.
Notation "c ;; k" := (bind c (fun _ => k))
  (at level 61, right associativity) : runner_scope.
Notation "' pat <- c ;; k" := (bind c (fun x => match x with pat => k end))
  (at level 61, pat pattern, c at next level, right associativity)
  : runner_scope.
Local Open Scope runner_scope.

(** [ET_CHECK_MSG(cond, ...)]: the run goes on when the condition holds and
    is aborted with the message otherwise. *)
Definition ET_CHECK_MSG {E} (cond : bool) (c : Check) : M E unit :=
  if cond then ret tt else stop (Aborted c).

(** [r.get()], [*r] and [r->]: the value of a [Result].  Taking the value of
    a failed [Result] ends the run at that site. *)
Definition get {E T} (r : Result T) (site : Site) : M E T :=
  match r with
  | Ok v => ret v
  | Failed _ => stop (FailedResultAccess site)
  end.

(** ** A concrete platform

    A bump allocation function for the heap and a small runtime, on which
    the runner can be run. *)

Definition span_end (s : Span) : Z := span_data s + span_size s.

(** Blocks are placed after everything live and after [heap_base]; a
    request that would pass [heap_limit] is refused. *)
Definition bump_new (heap_base heap_limit : Z) (lv : list Span) (n : Z)
  : option Z :=
  let p := fold_left Z.max (map span_end lv) heap_base in
  if p + n <=? heap_limit then Some p else None.

(** Two planned buffers, of 1024 and 2048 bytes. *)
Definition demo_meta : MethodMeta :=
  mkMethodMeta 2 (fun id => if id =? 0 then Ok 1024
                            else if id =? 1 then Ok 2048
                            else Failed 18).

(** A runtime with one file, ["model.pte"], whose program parses to
    [parsed] and whose single method ["forward"] has one output, [out];
    files can be opened for writing outside ["/nonexistent"]. *)
Definition demo_rt (parsed : Result string) (out : Z)
  : Runtime string string string Z Z :=
  mkRuntime string string string Z Z
    (fun path => if String.eqb path "model.pte" then Ok path else Failed 34)
    (fun _ => parsed)
    (fun _ index => if index =? 0 then Ok "forward"%string else Failed 18)
    (fun _ _ => Ok demo_meta)
    (fun _ _ => [64; 128])
    (fun _ name => Ok name)
    33
    (fun _ => Error_Ok)
    (fun _ => 1)
    (fun _ _ => Error_Ok)
    (fun _ _ => out)
    []
    (fun path => negb (String.prefix "/nonexistent" path))
    0.

Definition demo_pool : Z := 4096.

Definition demo_new : list Span -> Z -> option Z :=
  bump_new (demo_pool + sizeof_method_allocator_pool) (2 ^ 32).

(** A state with nothing live and every byte of memory set. *)
Definition demo_state : State := mkState (fun _ => Byte.xff) [].

Section Runner.

Context {Loader Program Method EValue JEValue : Type}.

(** The address of the static array [method_allocator_pool]. *)
Variable method_allocator_pool : Z.

(** [operator new[]]: given the live blocks and a size, the address of a
    new block, or nothing when the request cannot be served. *)
Variable operator_new : list Span -> Z -> option Z.

Variable rt : Runtime Loader Program Method EValue JEValue.

Definition pool_span : Span :=
  mkSpan method_allocator_pool sizeof_method_allocator_pool.

(** [std::make_unique<uint8_t[]>(n)]: a new block of [n] bytes, every byte
    value-initialized.  The blocks of the planned buffers are the heap
    blocks the model follows; the storage of the vectors and strings of the
    runner is left out. *)
Definition make_unique (n : Z) : M (Event EValue) Z :=
  fun s =>
    match operator_new (live s) n with
    | Some p =>
        mkRun (inl p)
              (mkState (fill (memory s) p n Byte.x00) (mkSpan p n :: live s))
              []
    | None => mkRun (inr bad_alloc) s []
    end.

Fixpoint remove_block (b : Span) (l : list Span) : list Span :=
  match l with
  | [] => []
  | c :: l' => if Span_eqb b c then l' else c :: remove_block b l'
  end.

(** The destructor of [planned_buffers]: every owned block is released. *)
Definition release (planned_spans : list Span) : M (Event EValue) unit :=
  fun s =>
    mkRun (inl tt)
          (mkState (memory s) (fold_left (fun l b => remove_block b l)
                                         planned_spans (live s)))
          [].

(** Lines 131-138 and 387-394:
    [for (size_t id = 0; id < num_memory_planned_buffers; ++id)], with
    [todo] the number of iterations left.  The two vectors are lists here:
    the heap storage they grow into is not followed, so [live] holds the
    blocks of the planned buffers and not the storage of the vectors. *)
Fixpoint planned_loop (meta : MethodMeta) (todo : nat) (id : Z)
         (planned_buffers : list Z) (planned_spans : list Span)
  : M (Event EValue) (list Z * list Span) :=
  match todo with
  | O => ret (planned_buffers, planned_spans)
  | S todo' =>
      sz <- get (memory_planned_buffer_size meta id) (At_buffer_size id) ;;
      let buffer_size := to_size_t sz in
      emit (ET_LOG Info (Msg_setting_up id buffer_size)) ;;
      p <- make_unique buffer_size ;;
      let planned_buffers := planned_buffers ++ [p] in
      let planned_spans :=
        planned_spans ++ [mkSpan (last planned_buffers 0) buffer_size] in
      planned_loop meta todo' (id + 1) planned_buffers planned_spans
  end.

(** Lines 116-144 and 372-400: the method allocator over the static pool,
    the planned buffers, the hierarchical allocator over their spans and
    the memory manager over both. *)
Definition assemble_memory_manager (meta : MethodMeta)
  : M (Event EValue) (list Z * MemoryManager) :=
  let method_allocator :=
    enable_profiling "method allocator"
      (MemoryAllocator_new sizeof_method_allocator_pool
                           method_allocator_pool) in
  let num_memory_planned_buffers := num_memory_planned_buffers meta in
  '(planned_buffers, planned_spans) <-
    planned_loop meta (Z.to_nat num_memory_planned_buffers) 0 [] [] ;;
  let planned_memory := mkHierarchicalAllocator planned_spans in
  ret (planned_buffers, mkMemoryManager method_allocator planned_memory).

(** Modelled from the spec: the engine's side of a method load is not
    among the sources of the runner.  By section 4.3 the loading step is
    granted the metadata arena and nothing else, and by the comment of
    lines 104-107 it returns an error when there is not enough memory: the
    engine serves its requests from the method allocator, in order, and
    gives up at the first one that is refused. *)
Fixpoint serve_requests (a : MemoryAllocator) (reqs : list Z)
  : bool * MemoryAllocator :=
  match reqs with
  | [] => (true, a)
  | n :: rest =>
      match allocate a n with
      | (inl _, a') => serve_requests a' rest
      | (inr _, a') => (false, a')
      end
  end.

(** [program->load_method(method_name, &memory_manager)]: the engine
    allocates from the method allocator of the manager it is given. *)
Definition load_method (program : Program) (method_name : string)
           (memory_manager : MemoryManager)
  : M (Event EValue) (Result Method * MemoryManager) :=
  emit (Call_load_method method_name memory_manager) ;;
  let '(fits, a) :=
    serve_requests (method_allocator memory_manager)
                   (load_method_requests rt program method_name) in
  let memory_manager' :=
    mkMemoryManager a (planned_memory memory_manager) in
  ret (if fits then load_method_result rt program method_name
       else Failed (MemoryAllocationFailed rt),
       memory_manager').

(** Lines 181-183 and 438-440: one line per output. *)
Fixpoint print_outputs (i : Z) (outputs : list EValue) : M (Event EValue) unit :=
  match outputs with
  | [] => ret tt
  | v :: rest => emit (Print_output i v) ;; print_outputs (i + 1) rest
  end.

(** Lines 64-95 and 325-351: load the file, parse the program, take the
    name of its first method and the metadata of that method.  A program
    that failed to parse is reported in the log and nothing returns there;
    the next two statements log the model as loaded and take the value of
    the failed result with [program->], where the run ends before
    [get_method_name] is called. *)
Definition resolve_method (model_path : string)
  : M (Event EValue) (Program * string * MethodMeta) :=
  emit (Call_FileDataLoader_from model_path) ;;
  let loader := FileDataLoader_from rt model_path in
  ET_CHECK_MSG (is_ok loader) (Chk_loader (error_of loader)) ;;
  ld <- get loader At_loader ;;
  emit Call_Program_load ;;
  let program := Program_load rt ld in
  (if negb (is_ok program)
   then emit (ET_LOG LogError (Msg_failed_to_parse model_path))
   else ret tt) ;;
  emit (ET_LOG Info (Msg_model_loaded model_path)) ;;
  program' <- get program At_program ;;
  emit (Call_get_method_name 0) ;;
  let method_name_result := get_method_name rt program' 0 in
  ET_CHECK_MSG (is_ok method_name_result) Chk_no_methods ;;
  method_name <- get method_name_result At_method_name ;;
  emit (ET_LOG Info (Msg_using_method method_name)) ;;
  emit (Call_method_meta method_name) ;;
  let method_meta := method_meta rt program' method_name in
  ET_CHECK_MSG (is_ok method_meta)
               (Chk_method_meta method_name (error_of method_meta)) ;;
  meta <- get method_meta At_method_meta ;;
  ret (program', method_name, meta).

(** Lines 152-183 and 408-440: bind the method, fill its inputs with ones,
    execute it once, read the outputs and print them. *)
Definition run_method (program : Program) (method_name : string)
           (memory_manager : MemoryManager) : M (Event EValue) unit :=
  '(method, memory_manager) <-
    load_method program method_name memory_manager ;;
  ET_CHECK_MSG (is_ok method)
               (Chk_load_method method_name (error_of method)) ;;
  emit (ET_LOG Info Msg_method_loaded) ;;
  method' <- get method At_method ;;
  emit Call_PrepareInputTensors ;;
  emit (ET_LOG Info Msg_inputs_prepared) ;;
  emit (Call_execute memory_manager) ;;
  let status := execute rt method' in
  ET_CHECK_MSG (status =? Error_Ok) (Chk_execute method_name status) ;;
  emit (ET_LOG Info Msg_executed) ;;
  emit Call_outputs_size ;;
  let n := outputs_size rt method' in
  emit (ET_LOG Info (Msg_outputs n)) ;;
  emit (Call_get_outputs n) ;;
  let status := get_outputs_status rt method' n in
  let outputs :=
    map (fun i => get_outputs_value rt method' (Z.of_nat i))
        (seq 0 (Z.to_nat n)) in
  ET_CHECK_MSG (status =? Error_Ok) Chk_get_outputs ;;
  emit (Print_evalue_edge_items 100) ;;
  print_outputs 0 outputs.

(** Lines 64-183 of [main] and lines 325-440 of [forward], which are the
    same statements.  The run gives back the spans whose blocks
    [planned_buffers] owns. *)
Definition load_and_execute (model_path : string)
  : M (Event EValue) (list Span) :=
  '(program, method_name, meta) <- resolve_method model_path ;;
  '(planned_buffers, memory_manager) <- assemble_memory_manager meta ;;
  run_method program method_name memory_manager ;;
  ret (ha_buffers (planned_memory memory_manager)).

(** Lines 51-196.  [argv] is what [gflags::ParseCommandLineFlags] leaves of
    the command line, the program name first.  The stream [fopen] gives
    for the profile is not tested: when the file cannot be opened, [fwrite]
    is handed a null stream and the run ends there. *)
Definition main (argv : list string)
           (FLAGS_model_path FLAGS_prof_result_path : string) : M (Event EValue) Z :=
  emit Call_runtime_init ;;
  let argc := Z.of_nat (List.length argv) in
  if negb (argc =? 1)
  then
    let msg :=
      fold_left (fun msg arg => (msg ++ " " ++ arg)%string) (tl argv)
                "Extra commandline args:"%string in
    emit (ET_LOG LogError (Msg_extra_args msg)) ;;
    ret 1
  else
    planned <- load_and_execute FLAGS_model_path ;;
    emit Call_DUMP_PROFILE_RESULTS ;;
    (if negb (Z.of_nat (List.length (prof_data rt)) =? 0)
     then
       if fopen rt FLAGS_prof_result_path
       then emit (Write_file FLAGS_prof_result_path (prof_data rt))
       else stop (NullStream FLAGS_prof_result_path)
     else ret tt) ;;
    emit Call_FreeInputs ;;
    release planned ;;
    ret 0.

(** [JEValue]: the type codes of the Java class. *)
Definition kTypeCodeNull : Z := 1.
Definition kTypeCodeTensor : Z := 2.
Definition kTypeCodeBool : Z := 3.
Definition kTypeCodeLong : Z := 4.
Definition kTypeCodeDouble : Z := 5.
Definition kTypeCodeString : Z := 6.
Definition kTypeCodeTuple : Z := 7.
Definition kTypeCodeBoolList : Z := 8.
Definition kTypeCodeLongList : Z := 9.
Definition kTypeCodeDoubleList : Z := 10.
Definition kTypeCodeTensorList : Z := 11.
Definition kTypeCodeList : Z := 12.
Definition kTypeCodeDictStringKey : Z := 13.
Definition kTypeCodeDictLongKey : Z := 14.

(** [PytorchJni]: the native peer keeps the model path. *)
Record PytorchJni := mkPytorchJni { model_path_ : string }.

(** Lines 264-278: the keys of [extraFiles] are collected and dropped. *)
Definition PytorchJni_new (modelPath : string)
           (extraFiles : list (string * string)) : PytorchJni :=
  let extra_files := map (fun e => (fst e, ""%string)) extraFiles in
  mkPytorchJni modelPath.

(** An exception leaves a call through its frames: the stack is unwound
    and the destructor of [planned_buffers] releases the blocks the call
    allocated, which leaves live what was live when the call began. *)
Definition unwinding {A} (c : M (Event EValue) A) : M (Event EValue) A :=
  fun s =>
    let r := c s in
    match outcome r with
    | inr bad_alloc =>
        mkRun (inr bad_alloc) (mkState (memory (final r)) (live s))
              (events r)
    | _ => r
    end.

(** Lines 320-448.  [std::bad_alloc] leaves [forward] towards Java; in
    [main] nothing catches it and the process ends. *)
Definition forward (this : PytorchJni) (jinputs : list JEValue)
  : M (Event EValue) JEValue :=
  unwinding
    (let model_path := model_path_ this in
     planned <- load_and_execute model_path ;;
     emit Call_FreeInputs ;;
     emit Call_optionalNull ;;
     release planned ;;
     ret (jMethodOptionalNull rt)).

(** ** What the properties are stated with *)

(** What C++ promises of [operator new[]]: the new block shares no address
    with the static pool or with a block that is live. *)
Definition operator_new_fresh : Prop :=
  forall lv n p,
    operator_new lv n = Some p ->
    disjoint (mkSpan p n) pool_span /\
    forall b, In b lv -> disjoint (mkSpan p n) b.

(** The largest object there can be: [operator new[]] serves no request
    above [PTRDIFF_MAX] bytes. *)
Definition PTRDIFF_MAX : Z := 2 ^ 63 - 1.

Definition operator_new_bounded : Prop :=
  forall lv n p, operator_new lv n = Some p -> n <= PTRDIFF_MAX.


Definition zeroed (m : Memory) (sp : Span) : Prop :=
  forall x, in_span sp x -> m x = Byte.x00.

(** The successful runs of the planned-buffer loop from [id]: the spans it
    adds, in order, and the state it leaves. *)
Inductive built (meta : MethodMeta)
  : Z -> State -> list Span -> State -> Prop :=
| built_done id s : built meta id s [] s
| built_next id s sz p new s' :
    memory_planned_buffer_size meta id = Ok sz ->
    operator_new (live s) (to_size_t sz) = Some p ->
    built meta (id + 1)
          (mkState (fill (memory s) p (to_size_t sz) Byte.x00)
                   (mkSpan p (to_size_t sz) :: live s))
          new s' ->
    built meta id s (mkSpan p (to_size_t sz) :: new) s'.

(** The steps of a cycle that concern the bound method. *)
Inductive Step := Bound | InputsFilled | Executed | OutputsRead.

Definition step_of (e : Event EValue) : option Step :=
  match e with
  | Call_load_method _ _ => Some Bound
  | Call_PrepareInputTensors => Some InputsFilled
  | Call_execute _ => Some Executed
  | Call_get_outputs _ => Some OutputsRead
  | _ => None
  end.

Fixpoint steps (t : list (Event EValue)) : list Step :=
  match t with
  | [] => []
  | e :: t' =>
      match step_of e with
      | Some st => st :: steps t'
      | None => steps t'
      end
  end.

(** The memory manager an event is made with. *)
Definition manager_of (e : Event EValue) : option MemoryManager :=
  match e with
  | Call_load_method _ mm => Some mm
  | Call_execute mm => Some mm
  | _ => None
  end.

(** What a cycle shows of its structure: the sizes of the planned buffers
    the method is bound with, and the number of outputs read back. *)
Fixpoint planned_sizes (t : list (Event EValue)) : list (list Z) :=
  match t with
  | [] => []
  | Call_load_method _ mm :: t' =>
      map span_size (ha_buffers (planned_memory mm)) :: planned_sizes t'
  | _ :: t' => planned_sizes t'
  end.

Fixpoint output_counts (t : list (Event EValue)) : list Z :=
  match t with
  | [] => []
  | Call_get_outputs n :: t' => n :: output_counts t'
  | _ :: t' => output_counts t'
  end.

(** An event with the addresses of the planned buffers left out. *)
Definition erase_span (sp : Span) : Span := mkSpan 0 (span_size sp).

Definition erase_manager (mm : MemoryManager) : MemoryManager :=
  mkMemoryManager
    (method_allocator mm)
    (mkHierarchicalAllocator (map erase_span (ha_buffers (planned_memory mm)))).

Definition erase_addresses (e : Event EValue) : Event EValue :=
  match e with
  | Call_load_method name mm => Call_load_method name (erase_manager mm)
  | Call_execute mm => Call_execute (erase_manager mm)
  | _ => e
  end.

(** A load cycle of the process: a run of [main], or a call of
    [forward]. *)
Inductive Cycle :=
| CLI (argv : list string) (FLAGS_model_path FLAGS_prof_result_path : string)
| JNI (this : PytorchJni) (jinputs : list JEValue).

Definition cycle_events (c : Cycle) (s : State) : list (Event EValue) :=
  match c with
  | CLI argv model_path prof_result_path =>
      events (main argv model_path prof_result_path s)
  | JNI this jinputs => events (forward this jinputs s)
  end.

(** The cycle ran to its end: [main] returned 0, [forward] returned. *)
Definition cycle_completes (c : Cycle) (s : State) : Prop :=
  match c with
  | CLI argv model_path prof_result_path =>
      outcome (main argv model_path prof_result_path s) = inl 0
  | JNI this jinputs => exists v, outcome (forward this jinputs s) = inl v
  end.

(** The profile of a run of [main] cannot be written: there are bytes to
    write and the file does not open. *)
Definition profile_write_fails (c : Cycle) : bool :=
  match c with
  | CLI _ _ prof_result_path =>
      negb (Z.of_nat (List.length (prof_data rt)) =? 0)
      && negb (fopen rt prof_result_path)
  | JNI _ _ => false
  end.

Definition canonical_steps : list Step :=
  [Bound; InputsFilled; Executed; OutputsRead].

(** The outputs a run prints, in the order it prints them. *)
Fixpoint printed_outputs (t : list (Event EValue)) : list EValue :=
  match t with
  | [] => []
  | Print_output _ v :: t' => v :: printed_outputs t'
  | _ :: t' => printed_outputs t'
  end.

(** The log lines of the loop for the spans it adds. *)
Fixpoint setting_up_log (id : Z) (new : list Span) : list (Event EValue) :=
  match new with
  | [] => []
  | sp :: rest =>
      ET_LOG Info (Msg_setting_up id (span_size sp))
      :: setting_up_log (id + 1) rest
  end.

(** ** More of the runner, and what its further properties are stated with *)

(** Lines 281-306, compiled for Android only: the peer over an asset.  The
    three Android calls give a null pointer when they fail; a failure
    throws [IllegalArgumentException] with its message.  [model_path_] is
    not assigned and stays the empty string it is constructed as. *)
Inductive JavaException := IllegalArgumentException (msg : string).

Definition PytorchJni_new_asset {JObject AAssetManager AAsset Buffer : Type}
           (AAssetManager_fromJava : JObject -> option AAssetManager)
           (AAssetManager_open : AAssetManager -> string -> option AAsset)
           (AAsset_getBuffer : AAsset -> option Buffer)
           (assetName : string) (assetManager : JObject)
  : PytorchJni + JavaException :=
  match AAssetManager_fromJava assetManager with
  | None => inr (IllegalArgumentException "Unable to get asset manager")
  | Some mgr =>
      match AAssetManager_open mgr assetName with
      | None =>
          inr (IllegalArgumentException
                 ("Failed to open asset '" ++ assetName ++ "'"))
      | Some asset =>
          match AAsset_getBuffer asset with
          | None =>
              inr (IllegalArgumentException
                     ("Could not get buffer for asset '" ++ assetName ++ "'"))
          | Some _ => inl (mkPytorchJni "")
          end
      end
  end.

(** The path a cycle loads its model from. *)
Definition cycle_path (c : Cycle) : string :=
  match c with
  | CLI _ model_path _ => model_path
  | JNI this _ => model_path_ this
  end.

(** What a cycle does before it loads its model. *)
Definition cycle_prefix (c : Cycle) : list (Event EValue) :=
  match c with
  | CLI _ _ _ => [Call_runtime_init]
  | JNI _ _ => []
  end.

(** The path a run of [main] writes its profile to. *)
Definition cycle_profile_path (c : Cycle) : string :=
  match c with
  | CLI _ _ prof_result_path => prof_result_path
  | JNI _ _ => ""
  end.

(** The cycle gets to load a model: every call of [forward] does, a run of
    [main] does when the command line has no argument left over. *)
Definition loads_a_model (c : Cycle) : Prop :=
  match c with
  | CLI argv _ _ => List.length argv = 1%nat
  | JNI _ _ => True
  end.

(** The cycle ends before its end, with [e]. *)
Definition cycle_stops (c : Cycle) (s : State) (e : Stop) : Prop :=
  match c with
  | CLI argv model_path prof_result_path =>
      outcome (main argv model_path prof_result_path s) = inr e
  | JNI this jinputs => outcome (forward this jinputs s) = inr e
  end.

(** The state a cycle leaves. *)
Definition cycle_final (c : Cycle) (s : State) : State :=
  match c with
  | CLI argv model_path prof_result_path =>
      final (main argv model_path prof_result_path s)
  | JNI this jinputs => final (forward this jinputs s)
  end.

(** The arguments left over, each after a space. *)
Fixpoint join_args (args : list string) : string :=
  match args with
  | [] => ""
  | arg :: rest => " " ++ arg ++ join_args rest
  end.

(** The part of a cycle an event belongs to. *)
Inductive Phase := Framing | Resolving | Sizing | Running.

Definition phase_of (e : Event EValue) : Phase :=
  match e with
  | Call_FileDataLoader_from _ | Call_Program_load
  | Call_get_method_name _ | Call_method_meta _ => Resolving
  | ET_LOG _ (Msg_failed_to_parse _) | ET_LOG _ (Msg_model_loaded _)
  | ET_LOG _ (Msg_using_method _) => Resolving
  | ET_LOG _ (Msg_setting_up _ _) => Sizing
  | ET_LOG _ (Msg_extra_args _) => Framing
  | ET_LOG _ _ => Running
  | Call_load_method _ _ | Call_PrepareInputTensors | Call_execute _
  | Call_outputs_size | Call_get_outputs _ | Print_evalue_edge_items _
  | Print_output _ _ => Running
  | _ => Framing
  end.

(** The runtime resolves [model_path] to [program], its first method
    [method_name] and that method's metadata. *)
Definition resolved (model_path : string) (program : Program)
           (method_name : string) (meta : MethodMeta) : Prop :=
  exists ld,
    FileDataLoader_from rt model_path = Ok ld /\
    Program_load rt ld = Ok program /\
    get_method_name rt program 0 = Ok method_name /\
    method_meta rt program method_name = Ok meta.

(** The engine binds [method_name] of [program] to [m]: its requests fit
    the method allocator of [mm] and the load succeeds. *)
Definition binds (program : Program) (method_name : string)
           (mm : MemoryManager) (m : Method) : Prop :=
  fst (serve_requests (method_allocator mm)
                      (load_method_requests rt program method_name)) = true /\
  load_method_result rt program method_name = Ok m.

(** The output lines a run prints: index and value. *)
Fixpoint printed_lines (t : list (Event EValue)) : list (Z * EValue) :=
  match t with
  | [] => []
  | Print_output i v :: t' => (i, v) :: printed_lines t'
  | _ :: t' => printed_lines t'
  end.

(** The files a run writes: path and content. *)
Fixpoint written_files (t : list (Event EValue))
  : list (string * list Byte.byte) :=
  match t with
  | [] => []
  | Write_file path data :: t' => (path, data) :: written_files t'
  | _ :: t' => written_files t'
  end.

(** The outputs of a method as the runner reads them back: one per index
    below [outputs_size]. *)
Definition outputs_of (m : Method) : list (Z * EValue) :=
  map (fun i => (Z.of_nat i, get_outputs_value rt m (Z.of_nat i)))
      (seq 0 (Z.to_nat (outputs_size rt m))).

(** * Properties *)

Hypothesis operator_new_is_fresh : operator_new_fresh.

(** ** The monad, projection by projection *)

Lemma outcome_bind {E A B} (c : M E A) (k : A -> M E B) s :
  outcome (bind c k s) =
  match outcome (c s) with
  | inl a => outcome (k a (final (c s)))
  | inr e => inr e
  end.
Proof. unfold bind. destruct (outcome (c s)); reflexivity. Qed.

Lemma final_bind {E A B} (c : M E A) (k : A -> M E B) s :
  final (bind c k s) =
  match outcome (c s) with
  | inl a => final (k a (final (c s)))
  | inr _ => final (c s)
  end.
Proof. unfold bind. destruct (outcome (c s)); reflexivity. Qed.

Lemma events_bind {E A B} (c : M E A) (k : A -> M E B) s :
  events (bind c k s) =
  match outcome (c s) with
  | inl a => events (c s) ++ events (k a (final (c s)))
  | inr _ => events (c s)
  end.
Proof. unfold bind. destruct (outcome (c s)); reflexivity. Qed.

Lemma outcome_unwinding {A} (c : M (Event EValue) A) s :
  outcome (unwinding c s) = outcome (c s).
Proof.
  unfold unwinding. destruct (outcome (c s)) as [a|[ch|site| |path]] eqn:E;
    cbn; congruence.
Qed.

Lemma events_unwinding {A} (c : M (Event EValue) A) s :
  events (unwinding c s) = events (c s).
Proof.
  unfold unwinding. destruct (outcome (c s)) as [a|[ch|site| |path]]; reflexivity.
Qed.

Lemma final_unwinding {A} (c : M (Event EValue) A) s :
  final (unwinding c s)
  = match outcome (c s) with
    | inr bad_alloc => mkState (memory (final (c s))) (live s)
    | _ => final (c s)
    end.
Proof.
  unfold unwinding. destruct (outcome (c s)) as [a|[ch|site| |path]]; reflexivity.
Qed.

(** ** The planned-buffer loop *)

(** A run of the loop that completes is a [built] run: it appended the
    spans it made, in the order it made them. *)
Lemma planned_loop_built meta :
  forall todo id bufs spans s bufs' spans',
    outcome (planned_loop meta todo id bufs spans s) = inl (bufs', spans') ->
    exists new,
      built meta id s new (final (planned_loop meta todo id bufs spans s)) /\
      spans' = spans ++ new /\
      bufs' = bufs ++ map span_data new /\
      List.length new = todo /\
      events (planned_loop meta todo id bufs spans s) = setting_up_log id new.
Proof.
  induction todo as [|todo IH]; intros id bufs spans s bufs' spans' H.
  - cbn in H. injection H as <- <-. exists []. cbn.
    rewrite !app_nil_r. repeat split. constructor.
  - cbn [planned_loop] in *.
    destruct (memory_planned_buffer_size meta id) as [sz|e] eqn:Hsz;
      [|discriminate H].
    unfold bind, get, ret, emit, make_unique in *. cbn in *.
    destruct (operator_new (live s) (to_size_t sz)) as [p|] eqn:Hp;
      cbn in *; [|discriminate H].
    rewrite last_last in *.
    destruct (IH _ _ _ _ _ _ H) as (new & Hb & -> & -> & Hlen & Hev).
    exists (mkSpan p (to_size_t sz) :: new). cbn.
    rewrite <- !app_assoc. cbn. repeat split.
    + econstructor; eassumption.
    + now rewrite Hlen.
    + now rewrite Hev.
Qed.

(** The loop stops early only where the source can: a size that the
    metadata does not give, or a buffer that cannot be allocated. *)
Lemma planned_loop_stops meta :
  forall todo id bufs spans s e,
    outcome (planned_loop meta todo id bufs spans s) = inr e ->
    e = bad_alloc \/
    exists id', id <= id' < id + Z.of_nat todo /\
                is_ok (memory_planned_buffer_size meta id') = false /\
                e = FailedResultAccess (At_buffer_size id').
Proof.
  induction todo as [|todo IH]; intros id bufs spans s e H.
  - discriminate H.
  - cbn [planned_loop] in H.
    destruct (memory_planned_buffer_size meta id) as [sz|err] eqn:Hsz.
    + unfold bind, get, ret, emit, make_unique in H. cbn in H.
      destruct (operator_new (live s) (to_size_t sz)) as [p|] eqn:Hp;
        cbn in H.
      * apply IH in H. destruct H as [H|(id' & Hr & Hk & He)]; [now left|].
        right. exists id'. repeat split; try assumption; lia.
      * injection H as <-. now left.
    + cbn in H. injection H as <-. right. exists id.
      rewrite Hsz. repeat split; try reflexivity; lia.
Qed.

(** The span at position [j] of a built run has the size the metadata
    declares for id [id + j], converted to [size_t]. *)
Lemma built_sizes meta id s new s' :
  built meta id s new s' ->
  forall j sp,
    nth_error new j = Some sp ->
    exists sz,
      memory_planned_buffer_size meta (id + Z.of_nat j) = Ok sz /\
      span_size sp = to_size_t sz.
Proof.
  induction 1 as [id s|id s sz p new s' Hsz Hp Hb IH]; intros j sp Hj.
  - destruct j; discriminate Hj.
  - destruct j as [|j]; cbn in Hj.
    + injection Hj as <-. exists sz. rewrite Z.add_0_r. now split.
    + destruct (IH _ _ Hj) as (sz' & Hsz' & Hs). exists sz'.
      rewrite <- Hsz'. split; [f_equal; lia|assumption].
Qed.

(** The blocks of a built run are live when it ends, on top of what was
    live before. *)
Lemma built_live meta id s new s' :
  built meta id s new s' -> live s' = rev new ++ live s.
Proof.
  induction 1 as [id s|id s sz p new s' Hsz Hp Hb IH]; [reflexivity|].
  rewrite IH. cbn. now rewrite <- app_assoc.
Qed.

(** With an allocation function that serves no request above
    [PTRDIFF_MAX], no span of a built run is larger than that. *)
Lemma built_served meta id s new s' :
  built meta id s new s' ->
  operator_new_bounded ->
  Forall (fun sp => span_size sp <= PTRDIFF_MAX) new.
Proof.
  intros Hb Hbound.
  induction Hb as [id s|id s sz p new s' Hsz Hp Hb IH]; constructor.
  - cbn. exact (Hbound _ _ _ Hp).
  - exact IH.
Qed.

Lemma disjoint_sym a b : disjoint a b -> disjoint b a.
Proof. unfold disjoint. intros H x Hb Ha. exact (H x Ha Hb). Qed.

(** Every span of a built run is apart from the static pool, from what
    was live before, and from the spans built after it. *)
Lemma built_fresh meta id s new s' :
  built meta id s new s' ->
  Forall (fun sp => disjoint sp pool_span /\
                    forall b, In b (live s) -> disjoint sp b) new /\
  ForallOrdPairs disjoint new.
Proof.
  induction 1 as [id s|id s sz p new s' Hsz Hp Hb [IH1 IH2]].
  - split; constructor.
  - destruct (operator_new_is_fresh _ _ _ Hp) as [Hpool Hlive].
    cbn [live] in IH1. rewrite Forall_forall in IH1.
    split.
    + constructor; [now split|].
      apply Forall_forall. intros sp Hin.
      destruct (IH1 sp Hin) as [H1 H2]. split; [assumption|].
      intros b Hb'. apply H2. now right.
    + constructor; [|assumption].
      apply Forall_forall. intros sp Hin.
      destruct (IH1 sp Hin) as [_ H2].
      apply disjoint_sym, H2. now left.
Qed.

Lemma fill_inside m p n b x :
  in_span (mkSpan p n) x -> fill m p n b x = b.
Proof.
  unfold in_span, fill. cbn. intros [H1 H2].
  apply Z.leb_le in H1. apply Z.ltb_lt in H2. now rewrite H1, H2.
Qed.

Lemma fill_outside m p n b x :
  ~ in_span (mkSpan p n) x -> fill m p n b x = m x.
Proof.
  unfold in_span, fill. cbn. intros H.
  destruct (p <=? x) eqn:H1; [|reflexivity].
  destruct (x <? p + n) eqn:H2; [|reflexivity].
  apply Z.leb_le in H1. apply Z.ltb_lt in H2. exfalso. apply H. lia.
Qed.

(** A built run changes memory only inside the spans it built. *)
Lemma built_memory_frame meta id s new s' :
  built meta id s new s' ->
  forall x, (forall sp, In sp new -> ~ in_span sp x) ->
            memory s' x = memory s x.
Proof.
  induction 1 as [id s|id s sz p new s' Hsz Hp Hb IH]; intros x Hout;
    [reflexivity|].
  rewrite IH by (intros sp Hin; apply Hout; now right).
  cbn. apply fill_outside. apply Hout. now left.
Qed.

(** Every span of a built run holds zero bytes when the run ends. *)
Lemma built_zeroed meta id s new s' :
  built meta id s new s' ->
  forall sp, In sp new -> zeroed (memory s') sp.
Proof.
  induction 1 as [id s|id s sz p new s' Hsz Hp Hb IH]; intros sp Hin x Hx;
    [destruct Hin|].
  destruct Hin as [<-|Hin]; [|now apply (IH sp Hin)].
  destruct (built_fresh _ _ _ _ _ Hb) as [Hf _].
  rewrite Forall_forall in Hf.
  rewrite (built_memory_frame _ _ _ _ _ Hb).
  - cbn. now apply fill_inside.
  - intros sp' Hin' Hx'. destruct (Hf sp' Hin') as [_ Hl].
    apply (Hl (mkSpan p (to_size_t sz))) with (x := x);
      [now left|assumption|assumption].
Qed.

(** ** The assembled memory manager *)

(** What a completed assembly hands out: the method allocator over the
    static pool, and the spans of a built run from id 0, one per planned
    buffer, each over the block its owner holds. *)
Lemma assemble_memory_manager_built meta s planned_buffers memory_manager :
  outcome (assemble_memory_manager meta s)
  = inl (planned_buffers, memory_manager) ->
  let regions := ha_buffers (planned_memory memory_manager) in
  built meta 0 s regions (final (assemble_memory_manager meta s)) /\
  method_allocator memory_manager
  = enable_profiling "method allocator"
      (MemoryAllocator_new sizeof_method_allocator_pool
                           method_allocator_pool) /\
  planned_buffers = map span_data regions /\
  List.length regions = Z.to_nat (num_memory_planned_buffers meta) /\
  events (assemble_memory_manager meta s) = setting_up_log 0 regions.
Proof.
  unfold assemble_memory_manager. intros H.
  rewrite outcome_bind in H. rewrite final_bind, events_bind.
  destruct (outcome (planned_loop meta _ 0 [] [] s)) as [[bufs spans]|e]
    eqn:Hloop; [|discriminate H].
  cbn in H. injection H as <- <-.
  destruct (planned_loop_built _ _ _ _ _ _ _ _ Hloop)
    as (new & Hb & -> & -> & Hlen & Hev).
  cbn. rewrite app_nil_r. repeat split; assumption.
Qed.

(** The second phase stops early only for a size the metadata does not
    give, below the number of buffers it reports, or for a refused
    allocation. *)
Lemma assemble_memory_manager_stops meta s e :
  outcome (assemble_memory_manager meta s) = inr e ->
  e = bad_alloc \/
  exists id, 0 <= id < num_memory_planned_buffers meta /\
             is_ok (memory_planned_buffer_size meta id) = false /\
             e = FailedResultAccess (At_buffer_size id).
Proof.
  unfold assemble_memory_manager. rewrite outcome_bind.
  destruct (outcome (planned_loop meta _ 0 [] [] s)) as [[bufs spans]|e']
    eqn:Hloop; [discriminate|].
  intros H. injection H as <-.
  apply planned_loop_stops in Hloop.
  destruct Hloop as [H|(id & Hr & Hk & He)]; [now left|right].
  exists id. repeat split; try assumption; lia.
Qed.

Lemma ForallOrdPairs_nth_error {A} (R : A -> A -> Prop) (l : list A) :
  ForallOrdPairs R l ->
  forall i j a b, (i < j)%nat ->
    nth_error l i = Some a -> nth_error l j = Some b -> R a b.
Proof.
  induction 1 as [|x l Hx Hl IH]; intros i j a b Hij Hi Hj.
  - destruct i; discriminate Hi.
  - destruct j as [|j]; [lia|]. cbn in Hj.
    destruct i as [|i]; cbn in Hi.
    + injection Hi as <-. rewrite Forall_forall in Hx.
      apply Hx. eapply nth_error_In; eassumption.
    + apply (IH i j); [lia|assumption|assumption].
Qed.

Lemma store_all_frame ws : forall (m : Memory) x,
  Forall (fun w => fst w <> x) ws -> store_all m ws x = m x.
Proof.
  unfold store_all.
  induction ws as [|w ws IH]; intros m x H; [reflexivity|].
  inversion H as [|? ? Hw Hws]; subst. cbn. rewrite IH by assumption.
  unfold store. destruct (x =? fst w) eqn:E; [|reflexivity].
  apply Z.eqb_eq in E. congruence.
Qed.


(** C9.  Right after the assembly, before any method is bound, every byte
    of every planned buffer is zero, whatever the memory held before:
    [make_unique] value-initializes each block and no later allocation of
    the loop lands on an earlier one. *)
Theorem planned_buffers_start_zeroed (meta : MethodMeta) (s : State)
        planned_buffers memory_manager :
  outcome (assemble_memory_manager meta s)
  = inl (planned_buffers, memory_manager) ->
  forall id region,
    nth_error (ha_buffers (planned_memory memory_manager)) id = Some region ->
    forall x, in_span region x ->
              memory (final (assemble_memory_manager meta s)) x = Byte.x00.
Proof.
  intros H id region Hn x Hx.
  destruct (assemble_memory_manager_built _ _ _ _ H) as (Hb & _).
  eapply built_zeroed; [exact Hb| |exact Hx].
  eapply nth_error_In; eassumption.
Qed.

(** C3.  The metadata arena and the planned buffers of an assembled memory
    manager share no address, nor do two planned buffers; so writes that
    stay inside the arena leave every byte of every planned buffer as it
    was, and writes that stay inside planned buffers leave every byte of
    the arena as it was. *)
Theorem arena_and_planned_buffers_isolated (meta : MethodMeta) (s : State)
        planned_buffers memory_manager :
  outcome (assemble_memory_manager meta s)
  = inl (planned_buffers, memory_manager) ->
  let arena := arena_span (method_allocator memory_manager) in
  let regions := ha_buffers (planned_memory memory_manager) in
  (forall region, In region regions -> disjoint arena region) /\
  (forall i j ri rj,
      i <> j -> nth_error regions i = Some ri ->
      nth_error regions j = Some rj -> disjoint ri rj) /\
  (forall (m : Memory) ws,
      Forall (fun w => in_span arena (fst w)) ws ->
      forall region x, In region regions -> in_span region x ->
                       store_all m ws x = m x) /\
  (forall (m : Memory) ws,
      Forall (fun w => exists region,
                  In region regions /\ in_span region (fst w)) ws ->
      forall x, in_span arena x -> store_all m ws x = m x).
Proof.
  intros H arena regions.
  destruct (assemble_memory_manager_built _ _ _ _ H)
    as (Hb & Hma & _).
  fold regions in Hb.
  destruct (built_fresh _ _ _ _ _ Hb) as [Hf Hp].
  rewrite Forall_forall in Hf.
  assert (Harena : arena = pool_span)
    by (unfold arena; rewrite Hma; reflexivity).
  assert (H1 : forall region, In region regions -> disjoint arena region).
  { intros region Hin. rewrite Harena.
    apply disjoint_sym. destruct (Hf region Hin) as [Hd _]. exact Hd. }
  repeat split.
  - exact H1.
  - intros i j ri rj Hij Hi Hj.
    destruct (Nat.lt_total i j) as [Hlt|[Heq|Hgt]]; [|contradiction|].
    + exact (ForallOrdPairs_nth_error _ _ Hp _ _ _ _ Hlt Hi Hj).
    + apply disjoint_sym.
      exact (ForallOrdPairs_nth_error _ _ Hp _ _ _ _ Hgt Hj Hi).
  - intros m ws Hws region x Hin Hx. apply store_all_frame.
    eapply Forall_impl; [|exact Hws].
    intros w Hw E. cbn beta in Hw. rewrite E in Hw.
    exact (H1 region Hin _ Hw Hx).
  - intros m ws Hws x Hx. apply store_all_frame.
    eapply Forall_impl; [|exact Hws].
    intros w (region & Hin & Hw) E. rewrite E in Hw.
    exact (H1 region Hin _ Hx Hw).
Qed.

(** ** The metadata arena *)

Lemma allocate_seq_app (l1 l2 : list Z) : forall a,
  allocate_seq a (l1 ++ l2) =
  (fst (allocate_seq a l1) ++ fst (allocate_seq (snd (allocate_seq a l1)) l2),
   snd (allocate_seq (snd (allocate_seq a l1)) l2)).
Proof.
  induction l1 as [|n l1 IH]; intros a; cbn [allocate_seq app].
  - cbn. now destruct (allocate_seq a l2).
  - destruct (allocate a n) as [r a1]. rewrite IH.
    destruct (allocate_seq a1 l1) as [rs1 a2]. cbn.
    now destruct (allocate_seq a2 l2).
Qed.

Lemma total_requested_nonneg (reqs : list Z) :
  Forall (fun n => 0 <= n) reqs -> 0 <= total_requested reqs.
Proof. induction 1; unfold total_requested in *; cbn; lia. Qed.

(** Requests that fit together are all served, and consume their total. *)
Lemma allocate_seq_fits (reqs : list Z) : forall a,
  Forall (fun n => 0 <= n) reqs ->
  total_requested reqs <= ma_size a - ma_used a ->
  Forall is_region (fst (allocate_seq a reqs)) /\
  snd (allocate_seq a reqs)
  = mkMemoryAllocator (ma_size a) (ma_base a)
                      (ma_used a + total_requested reqs) (ma_profiling a).
Proof.
  induction reqs as [|n reqs IH]; intros a Hpos Hfit.
  - cbn. split; [constructor|]. destruct a; cbn. f_equal. lia.
  - inversion Hpos as [|? ? Hn Hrest]; subst.
    pose proof (total_requested_nonneg reqs Hrest) as Hsum.
    change (total_requested (n :: reqs)) with (n + total_requested reqs)
      in *.
    cbn [allocate_seq]. unfold allocate.
    assert (Hle : n <= ma_size a - ma_used a) by lia.
    apply Z.leb_le in Hle. rewrite Hle.
    match goal with
    | |- context [allocate_seq ?a1 reqs] =>
        destruct (IH a1 Hrest) as [H1 H2]; [cbn; lia|];
        destruct (allocate_seq a1 reqs) as [rs a2]
    end.
    cbn in H1, H2 |- *. split.
    + constructor; [eexists; reflexivity|assumption].
    + rewrite H2. f_equal. lia.
Qed.

Lemma allocate_seq_length (reqs : list Z) : forall a,
  List.length (fst (allocate_seq a reqs)) = List.length reqs.
Proof.
  induction reqs as [|n reqs IH]; intros a; [reflexivity|].
  cbn. destruct (allocate a n) as [r a1].
  specialize (IH a1). destruct (allocate_seq a1 reqs). cbn in *.
  now rewrite IH.
Qed.

(** Whatever is asked, the arena keeps its block and its use only grows;
    the regions it hands out lie inside the block, one after the other in
    the part in use. *)
Lemma allocate_seq_regions (reqs : list Z) : forall a,
  Forall (fun n => 0 <= n) reqs ->
  let rs := fst (allocate_seq a reqs) in
  let a' := snd (allocate_seq a reqs) in
  ma_base a' = ma_base a /\ ma_size a' = ma_size a /\
  ma_used a <= ma_used a' /\
  (forall region, In (inl region) rs ->
                  ma_base a + ma_used a <= span_data region /\
                  span_data region + span_size region
                  <= ma_base a + ma_used a' /\
                  span_data region + span_size region
                  <= ma_base a + ma_size a) /\
  ForallOrdPairs region_before rs.
Proof.
  induction reqs as [|n reqs IH]; intros a Hpos; cbn.
  - repeat split; try lia; try constructor; destruct H.
  - inversion Hpos as [|? ? Hn Hrest]; subst.
    unfold allocate.
    destruct (n <=? ma_size a - ma_used a) eqn:Hle;
      [apply Z.leb_le in Hle|];
      match goal with
      | |- context [allocate_seq ?a1 reqs] =>
          specialize (IH a1 Hrest); cbn in IH;
          destruct (allocate_seq a1 reqs) as [rs a2]
      end;
      cbn in *; destruct IH as (H1 & H2 & H3 & H5 & H6).
    + repeat split; try lia;
        try (destruct H as [E|Hin];
             [injection E as <-; cbn; lia|apply H5 in Hin; lia]).
      constructor; [|assumption].
      apply Forall_forall. intros [r|e] Hin; cbn; [|exact I].
      apply H5 in Hin. lia.
    + repeat split; try lia;
        try (destruct H as [E|Hin];
             [discriminate E|apply H5 in Hin; lia]).
      constructor; [|assumption].
      apply Forall_forall. intros r Hin. exact I.
Qed.

(** C4.  Requests against a metadata arena of capacity [C]: when their total
    is at most [C] all of them are served and the high-water mark stays
    within [C]; the first request that would pass what is left is refused
    with [OutOfArenaSpace] and changes nothing, so the requests before it
    stay served and the arena stays as they left it; and every region ever
    handed out lies inside the arena's own block, after the regions handed
    out before it: nothing comes from anywhere else and nothing handed out
    is handed out again. *)
Theorem arena_allocation_bounded (C base : Z) (reqs : list Z) :
  Forall (fun n => 0 <= n) reqs ->
  let arena := MemoryAllocator_new C base in
  let results := fst (allocate_seq arena reqs) in
  (total_requested reqs <= C ->
   Forall is_region results /\
   high_water_mark (snd (allocate_seq arena reqs)) = total_requested reqs /\
   high_water_mark (snd (allocate_seq arena reqs)) <= C) /\
  (forall pre n post,
      reqs = pre ++ n :: post ->
      total_requested pre <= C < total_requested pre + n ->
      let before := snd (allocate_seq arena pre) in
      Forall is_region (fst (allocate_seq arena pre)) /\
      firstn (List.length pre) results = fst (allocate_seq arena pre) /\
      nth_error results (List.length pre) = Some (inr OutOfArenaSpace) /\
      allocate before n = (inr OutOfArenaSpace, before) /\
      high_water_mark before = total_requested pre) /\
  (forall region, In (inl region) results ->
                  base <= span_data region /\
                  span_data region + span_size region <= base + C) /\
  (forall i j ri rj,
      (i < j)%nat ->
      nth_error results i = Some (inl ri) ->
      nth_error results j = Some (inl rj) ->
      disjoint ri rj).
Proof.
  intros Hpos arena results.
  destruct (allocate_seq_regions reqs arena Hpos)
    as (_ & _ & H3 & H5 & H6).
  fold results in H5, H6. cbn in H3, H5.
  split; [|split; [|split]].
  - intros Hfit.
    destruct (allocate_seq_fits reqs arena Hpos) as [Hall E]; [cbn; lia|].
    rewrite E. cbn. repeat split; [exact Hall|lia].
  - intros pre n post Hreqs Hcross before.
    assert (Hpre : Forall (fun n => 0 <= n) pre).
    { rewrite Hreqs in Hpos. apply Forall_app in Hpos. tauto. }
    destruct (allocate_seq_fits pre arena Hpre) as [Hall E]; [cbn; lia|].
    assert (Hn : allocate before n = (inr OutOfArenaSpace, before)).
    { subst before. rewrite E. unfold allocate. cbn.
      destruct (n <=? C - total_requested pre) eqn:Hle;
        [apply Z.leb_le in Hle; lia|reflexivity]. }
    pose proof (allocate_seq_length pre arena) as Hl.
    split; [exact Hall|]. split; [|split; [|split]].
    + subst results. rewrite Hreqs, allocate_seq_app. cbn [fst].
      rewrite <- Hl, firstn_app, firstn_all, Nat.sub_diag. cbn.
      now rewrite app_nil_r.
    + subst results. rewrite Hreqs, allocate_seq_app. cbn [fst].
      rewrite nth_error_app2 by lia. rewrite Hl, Nat.sub_diag.
      cbn. fold before. rewrite Hn.
      now destruct (allocate_seq before post).
    + exact Hn.
    + subst before. rewrite E. reflexivity.
  - intros region Hin. apply H5 in Hin. lia.
  - intros i j ri rj Hij Hi Hj x [Hx1 Hx2] [Hy1 Hy2].
    pose proof (ForallOrdPairs_nth_error _ _ H6 _ _ _ _ Hij Hi Hj) as Hb.
    cbn in Hb. lia.
Qed.

(** ** The load/execute cycle, phase by phase *)

Lemma steps_app (t1 t2 : list (Event EValue)) :
  steps (t1 ++ t2) = steps t1 ++ steps t2.
Proof.
  induction t1 as [|e t1 IH]; [reflexivity|].
  cbn. destruct (step_of e); cbn; now rewrite IH.
Qed.

Lemma planned_sizes_app (t1 t2 : list (Event EValue)) :
  planned_sizes (t1 ++ t2) = planned_sizes t1 ++ planned_sizes t2.
Proof.
  induction t1 as [|e t1 IH]; [reflexivity|].
  destruct e; cbn; now rewrite IH.
Qed.

Lemma output_counts_app (t1 t2 : list (Event EValue)) :
  output_counts (t1 ++ t2) = output_counts t1 ++ output_counts t2.
Proof.
  induction t1 as [|e t1 IH]; [reflexivity|].
  destruct e; cbn; now rewrite IH.
Qed.

(** Events that are no step of the bound method carry no memory manager
    and show nothing of the structure of the cycle. *)
Lemma quiet_events (t : list (Event EValue)) :
  Forall (fun e => step_of e = None) t ->
  steps t = [] /\ planned_sizes t = [] /\ output_counts t = [] /\
  Forall (fun e => manager_of e = None) t.
Proof.
  induction 1 as [|e t He Ht (IH1 & IH2 & IH3 & IH4)].
  - repeat split; constructor.
  - destruct e; try discriminate He; cbn; repeat split;
      try assumption; constructor; try reflexivity; assumption.
Qed.

(** The first phase does not look at the state and leaves it alone. *)
Lemma resolve_method_stateless model_path s :
  final (resolve_method model_path s) = s /\
  forall s', outcome (resolve_method model_path s')
             = outcome (resolve_method model_path s) /\
             events (resolve_method model_path s')
             = events (resolve_method model_path s).
Proof.
  unfold resolve_method.
  destruct (FileDataLoader_from rt model_path) as [ld|e]; cbn;
    [|now split].
  destruct (Program_load rt ld) as [p|e]; cbn; [|now split].
  destruct (get_method_name rt p 0) as [name|e]; cbn; [|now split].
  destruct (method_meta rt p name) as [meta|e]; cbn; now split.
Qed.

(** What the first phase gives is what the runtime gives for the path. *)
Lemma resolve_method_done model_path s program method_name meta :
  outcome (resolve_method model_path s) = inl (program, method_name, meta) ->
  exists ld,
    FileDataLoader_from rt model_path = Ok ld /\
    Program_load rt ld = Ok program /\
    get_method_name rt program 0 = Ok method_name /\
    method_meta rt program method_name = Ok meta.
Proof.
  unfold resolve_method.
  destruct (FileDataLoader_from rt model_path) as [ld|e]; cbn;
    [|discriminate].
  destruct (Program_load rt ld) as [p|e] eqn:Hp; cbn; [|discriminate].
  destruct (get_method_name rt p 0) as [name|e] eqn:Hn; cbn;
    [|discriminate].
  destruct (method_meta rt p name) as [m|e] eqn:Hm; cbn; [|discriminate].
  intros H. injection H as <- <- <-. exists ld. now repeat split.
Qed.

Lemma resolve_method_quiet model_path s :
  Forall (fun e => step_of e = None) (events (resolve_method model_path s)).
Proof.
  unfold resolve_method.
  destruct (FileDataLoader_from rt model_path) as [ld|e]; cbn;
    [|repeat constructor].
  destruct (Program_load rt ld) as [p|e]; cbn; [|repeat constructor].
  destruct (get_method_name rt p 0) as [name|e]; cbn; [|repeat constructor].
  destruct (method_meta rt p name) as [meta|e]; cbn; repeat constructor.
Qed.

Lemma planned_loop_quiet meta :
  forall todo id bufs spans s,
    Forall (fun e => step_of e = None)
           (events (planned_loop meta todo id bufs spans s)).
Proof.
  induction todo as [|todo IH]; intros id bufs spans s; [constructor|].
  cbn [planned_loop].
  destruct (memory_planned_buffer_size meta id) as [sz|err];
    [|constructor].
  unfold bind, get, ret, emit, make_unique. cbn.
  destruct (operator_new (live s) (to_size_t sz)) as [p|]; cbn.
  - constructor; [reflexivity|apply IH].
  - repeat constructor.
Qed.

Lemma assemble_memory_manager_quiet meta s :
  Forall (fun e => step_of e = None)
         (events (assemble_memory_manager meta s)).
Proof.
  unfold assemble_memory_manager. rewrite events_bind.
  pose proof (planned_loop_quiet
                meta (Z.to_nat (num_memory_planned_buffers meta)) 0 [] [] s)
    as Hq.
  destruct (outcome (planned_loop meta _ 0 [] [] s)) as [[bufs spans]|e];
    [|exact Hq].
  cbn. now rewrite app_nil_r.
Qed.

Lemma print_outputs_quiet outputs : forall i s,
  Forall (fun e => step_of e = None) (events (print_outputs i outputs s)) /\
  outcome (print_outputs i outputs s) = inl tt /\
  final (print_outputs i outputs s) = s /\
  forall s', events (print_outputs i outputs s')
             = events (print_outputs i outputs s).
Proof.
  induction outputs as [|v outputs IH]; intros i s.
  - repeat split; constructor.
  - cbn [print_outputs]. unfold bind, emit. cbn.
    destruct (IH (i + 1) s) as (H1 & H2 & H3 & H4).
    repeat split; try assumption.
    + constructor; [reflexivity|assumption].
    + intros s'. f_equal. rewrite (H4 s'). reflexivity.
Qed.

(** The engine leaves the method allocator on its block. *)
Lemma serve_requests_block reqs : forall a,
  ma_base (snd (serve_requests a reqs)) = ma_base a /\
  ma_size (snd (serve_requests a reqs)) = ma_size a.
Proof.
  induction reqs as [|n reqs IH]; intros a; [now split|].
  cbn [serve_requests]. unfold allocate.
  destruct (n <=? ma_size a - ma_used a); [|now split].
  destruct (IH (mkMemoryAllocator (ma_size a) (ma_base a) (ma_used a + n)
                                  (ma_profiling a))) as [H1 H2].
  now split.
Qed.

(** The cycle is its three phases, one after the other. *)
Lemma load_and_execute_phases model_path s :
  let r1 := resolve_method model_path s in
  match outcome r1 with
  | inr e =>
      outcome (load_and_execute model_path s) = inr e /\
      events (load_and_execute model_path s) = events r1
  | inl (program, method_name, meta) =>
      let r2 := assemble_memory_manager meta s in
      match outcome r2 with
      | inr e =>
          outcome (load_and_execute model_path s) = inr e /\
          events (load_and_execute model_path s) = events r1 ++ events r2
      | inl (planned_buffers, memory_manager) =>
          let r3 := run_method program method_name memory_manager
                               (final r2) in
          outcome (load_and_execute model_path s)
          = match outcome r3 with
            | inl _ => inl (ha_buffers (planned_memory memory_manager))
            | inr e => inr e
            end /\
          final (load_and_execute model_path s) = final r3 /\
          events (load_and_execute model_path s)
          = events r1 ++ events r2 ++ events r3
      end
  end.
Proof.
  intros r1. unfold load_and_execute.
  rewrite outcome_bind, events_bind, final_bind.
  destruct (resolve_method_stateless model_path s) as [Hs _].
  fold r1 in Hs |- *. rewrite Hs.
  destruct (outcome r1) as [[[program method_name] meta]|e]; [|now split].
  rewrite outcome_bind, events_bind, final_bind.
  destruct (outcome (assemble_memory_manager meta s))
    as [[planned_buffers memory_manager]|e]; [|now split].
  rewrite outcome_bind, events_bind, final_bind.
  destruct (outcome (run_method program method_name memory_manager _))
    as [[]|e]; cbn; rewrite ?app_nil_r; now repeat split.
Qed.

(** Case analysis of the third phase: whether the requests of the load
    fit, whether the load succeeds, and the two statuses. *)
Ltac run_method_cases p name mm :=
  unfold run_method, load_method;
  let fits := fresh "fits" in
  let a := fresh "a" in
  let m := fresh "m" in
  destruct (serve_requests (method_allocator mm)
                           (load_method_requests rt p name))
    as [fits a] eqn:Hserve;
  destruct fits;
  [destruct (load_method_result rt p name) as [m|?] eqn:Hload; cbn;
   [destruct (execute rt m =? Error_Ok) eqn:Hexec; cbn;
    [destruct (get_outputs_status rt m (outputs_size rt m) =? Error_Ok)
       eqn:Hget; cbn|]|]|cbn].

(** The steps of the third phase: a start of bind, fill, execute, read,
    and all four of them when the phase completes. *)
Lemma run_method_steps program method_name memory_manager s :
  let r := run_method program method_name memory_manager s in
  let canonical := [Bound; InputsFilled; Executed; OutputsRead] in
  (exists n, steps (events r) = firstn n canonical) /\
  (forall u, outcome r = inl u -> steps (events r) = canonical).
Proof.
  cbv zeta.
  run_method_cases program method_name memory_manager.
  - match goal with
    | |- context [print_outputs ?i ?o ?s] =>
        destruct (print_outputs_quiet o i s) as (Hq & _);
        apply quiet_events in Hq; destruct Hq as (-> & _)
    end.
    split; [now exists 4%nat|reflexivity].
  - split; [now exists 4%nat|discriminate].
  - split; [now exists 3%nat|discriminate].
  - split; [now exists 1%nat|discriminate].
  - split; [now exists 1%nat|discriminate].
Qed.

(** The third phase leaves the state alone. *)
Lemma run_method_final program method_name memory_manager s :
  final (run_method program method_name memory_manager s) = s.
Proof.
  run_method_cases program method_name memory_manager; try reflexivity.
  match goal with
  | |- context [print_outputs ?i ?o ?s] =>
      now destruct (print_outputs_quiet o i s) as (_ & _ & -> & _)
  end.
Qed.

(** Every memory manager the third phase shows has the planned memory it
    was given and a method allocator on the block of the one it was
    given; the one the method is bound with is the one it was given. *)
Lemma run_method_managers program method_name memory_manager s :
  forall e mm,
    In e (events (run_method program method_name memory_manager s)) ->
    manager_of e = Some mm ->
    ma_base (method_allocator mm)
    = ma_base (method_allocator memory_manager) /\
    ma_size (method_allocator mm)
    = ma_size (method_allocator memory_manager) /\
    planned_memory mm = planned_memory memory_manager /\
    (step_of e = Some Bound -> mm = memory_manager).
Proof.
  intros e mm.
  pose proof (serve_requests_block
                (load_method_requests rt program method_name)
                (method_allocator memory_manager)) as Hblock.
  run_method_cases program method_name memory_manager;
    cbn in Hblock; destruct Hblock as [Hb Hs];
    intros Hin Hm;
    repeat match goal with
           | H : _ \/ _ |- _ => destruct H as [<-|H]
           | H : In _ (_ ++ _) |- _ => apply in_app_or in H
           end;
    try discriminate Hm; try contradiction;
    try (injection Hm as <-; cbn; repeat split; try assumption;
         discriminate).
  match goal with
  | H : In _ (events (print_outputs ?i ?o ?s)) |- _ =>
      destruct (print_outputs_quiet o i s) as (Hq & _);
      apply quiet_events in Hq; destruct Hq as (_ & _ & _ & Hq);
      rewrite Forall_forall in Hq; apply Hq in H; congruence
  end.
Qed.

(** What a completed third phase shows of the structure of the cycle. *)
Lemma run_method_structure program method_name memory_manager s u :
  outcome (run_method program method_name memory_manager s) = inl u ->
  exists m,
    load_method_result rt program method_name = Ok m /\
    planned_sizes (events (run_method program method_name memory_manager s))
    = [map span_size (ha_buffers (planned_memory memory_manager))] /\
    output_counts (events (run_method program method_name memory_manager s))
    = [outputs_size rt m].
Proof.
  run_method_cases program method_name memory_manager; try discriminate.
  intros _. exists m.
  match goal with
  | |- context [print_outputs ?i ?o ?s] =>
      destruct (print_outputs_quiet o i s) as (Hq & _);
      apply quiet_events in Hq; destruct Hq as (_ & -> & -> & _)
  end.
  now repeat split.
Qed.

(** Two runs of the third phase with memory managers that differ in the
    addresses of the planned buffers only end the same way and show the
    same events, addresses apart. *)
Lemma run_method_erased program method_name mm1 mm2 s1 s2 :
  erase_manager mm1 = erase_manager mm2 ->
  outcome (run_method program method_name mm1 s1)
  = outcome (run_method program method_name mm2 s2) /\
  map erase_addresses (events (run_method program method_name mm1 s1))
  = map erase_addresses (events (run_method program method_name mm2 s2)).
Proof.
  intros He.
  assert (Ha : method_allocator mm1 = method_allocator mm2)
    by (unfold erase_manager in He; now injection He).
  assert (Hp : map erase_span (ha_buffers (planned_memory mm1))
               = map erase_span (ha_buffers (planned_memory mm2)))
    by (unfold erase_manager in He; now injection He).
  unfold run_method, load_method. rewrite <- Ha.
  destruct (serve_requests (method_allocator mm1)
                           (load_method_requests rt program method_name))
    as [fits a].
  destruct fits;
    [destruct (load_method_result rt program method_name) as [m|?]; cbn;
     [destruct (execute rt m =? Error_Ok); cbn;
      [destruct (get_outputs_status rt m (outputs_size rt m) =? Error_Ok);
       cbn|]
     |]|cbn];
    unfold erase_manager; cbn; rewrite ?Ha, ?Hp; try (now split).
  match goal with
  | |- context [print_outputs ?i ?o s1] =>
      destruct (print_outputs_quiet o i s1) as (_ & H1 & _ & H4);
      destruct (print_outputs_quiet o i s2) as (_ & H2 & _ & _);
      rewrite H1, H2, (H4 s2)
  end.
  now split.
Qed.

(** ** The whole cycle *)

Lemma quiet_erased (t : list (Event EValue)) :
  Forall (fun e => step_of e = None) t -> map erase_addresses t = t.
Proof.
  induction 1 as [|e t He Ht IH]; [reflexivity|].
  cbn. rewrite IH. now destruct e; try discriminate He.
Qed.

(** Two built runs for the same metadata from the same id build spans of
    the same sizes when they build as many. *)
Lemma built_same_sizes meta id s1 new1 s1' :
  built meta id s1 new1 s1' ->
  forall s2 new2 s2',
    built meta id s2 new2 s2' ->
    List.length new1 = List.length new2 ->
    map span_size new1 = map span_size new2.
Proof.
  induction 1 as [id s|id s sz p new s' Hsz Hp Hb IH];
    intros s2 new2 s2' H2 Hlen.
  - destruct new2; [reflexivity|discriminate Hlen].
  - inversion H2 as [|? ? sz2 p2 new2' ? Hsz2 Hp2 Hb2]; subst;
      [discriminate Hlen|].
    rewrite Hsz in Hsz2. injection Hsz2 as <-.
    cbn. f_equal. eapply IH; [exact Hb2|].
    cbn in Hlen. now injection Hlen.
Qed.

Lemma setting_up_log_sizes new1 : forall new2 id,
  map span_size new1 = map span_size new2 ->
  setting_up_log id new1 = setting_up_log id new2.
Proof.
  induction new1 as [|sp1 new1 IH]; intros [|sp2 new2] id H;
    try discriminate H; [reflexivity|].
  cbn in H. injection H as H1 H2. cbn. rewrite H1. f_equal. now apply IH.
Qed.

(** Two completed assemblies for the same metadata differ in the addresses
    of the planned buffers only. *)
Lemma assemble_memory_manager_erased meta s1 s2 bufs1 mm1 bufs2 mm2 :
  outcome (assemble_memory_manager meta s1) = inl (bufs1, mm1) ->
  outcome (assemble_memory_manager meta s2) = inl (bufs2, mm2) ->
  erase_manager mm1 = erase_manager mm2 /\
  map span_size (ha_buffers (planned_memory mm1))
  = map span_size (ha_buffers (planned_memory mm2)) /\
  events (assemble_memory_manager meta s1)
  = events (assemble_memory_manager meta s2).
Proof.
  intros H1 H2.
  destruct (assemble_memory_manager_built _ _ _ _ H1)
    as (Hb1 & Ha1 & _ & Hl1 & He1).
  destruct (assemble_memory_manager_built _ _ _ _ H2)
    as (Hb2 & Ha2 & _ & Hl2 & He2).
  assert (Hs : map span_size (ha_buffers (planned_memory mm1))
               = map span_size (ha_buffers (planned_memory mm2))).
  { eapply built_same_sizes; [exact Hb1|exact Hb2|congruence]. }
  repeat split.
  - unfold erase_manager. rewrite Ha1, Ha2. do 2 f_equal.
    unfold erase_span.
    rewrite <- (map_map span_size (mkSpan 0)), Hs.
    now rewrite map_map.
  - exact Hs.
  - rewrite He1, He2. now apply setting_up_log_sizes.
Qed.

(** The steps of the bound method in a run of the three phases. *)
Lemma load_and_execute_steps model_path s :
  (exists n, steps (events (load_and_execute model_path s))
             = firstn n canonical_steps) /\
  (forall planned, outcome (load_and_execute model_path s) = inl planned ->
                   steps (events (load_and_execute model_path s))
                   = canonical_steps).
Proof.
  pose proof (load_and_execute_phases model_path s) as H. cbv zeta in H.
  pose proof (resolve_method_quiet model_path s) as Hq1.
  apply quiet_events in Hq1. destruct Hq1 as (Hq1 & _).
  destruct (outcome (resolve_method model_path s))
    as [[[program method_name] meta]|e].
  - pose proof (assemble_memory_manager_quiet meta s) as Hq2.
    apply quiet_events in Hq2. destruct Hq2 as (Hq2 & _).
    destruct (outcome (assemble_memory_manager meta s)) as [[bufs mm]|e].
    + destruct H as (Ho & _ & He). rewrite He, Ho.
      rewrite !steps_app, Hq1, Hq2. cbn [app].
      destruct (run_method_steps program method_name mm
                  (final (assemble_memory_manager meta s))) as [Hn Hc].
      split; [exact Hn|].
      intros planned Hp.
      destruct (outcome (run_method program method_name mm _)) as [u|e'];
        [now apply (Hc u)|discriminate Hp].
    + destruct H as (Ho & He). rewrite He, Ho, steps_app, Hq1, Hq2.
      split; [now exists 0%nat|discriminate].
  - destruct H as (Ho & He). rewrite He, Ho, Hq1.
    split; [now exists 0%nat|discriminate].
Qed.

(** Every memory manager a run of the three phases shows has its method
    allocator on the static pool, all [4 * 1024 * 1024] bytes of it, and
    the one the method is bound with has handed out nothing yet. *)
Lemma load_and_execute_managers model_path s e mm :
  In e (events (load_and_execute model_path s)) ->
  manager_of e = Some mm ->
  arena_span (method_allocator mm)
  = mkSpan method_allocator_pool (4 * 1024 * 1024) /\
  (step_of e = Some Bound -> ma_used (method_allocator mm) = 0).
Proof.
  intros Hin Hm.
  pose proof (load_and_execute_phases model_path s) as H. cbv zeta in H.
  pose proof (resolve_method_quiet model_path s) as Hq1.
  apply quiet_events in Hq1. destruct Hq1 as (_ & _ & _ & Hq1).
  rewrite Forall_forall in Hq1.
  destruct (outcome (resolve_method model_path s))
    as [[[program method_name] meta]|e1].
  - pose proof (assemble_memory_manager_quiet meta s) as Hq2.
    apply quiet_events in Hq2. destruct Hq2 as (_ & _ & _ & Hq2).
    rewrite Forall_forall in Hq2.
    destruct (outcome (assemble_memory_manager meta s)) as [[bufs mm0]|e2]
      eqn:Ha.
    + destruct H as (_ & _ & He). rewrite He in Hin.
      apply in_app_or in Hin. destruct Hin as [Hin|Hin];
        [apply Hq1 in Hin; congruence|].
      apply in_app_or in Hin. destruct Hin as [Hin|Hin];
        [apply Hq2 in Hin; congruence|].
      destruct (assemble_memory_manager_built _ _ _ _ Ha)
        as (_ & Hma & _).
      destruct (run_method_managers _ _ _ _ _ _ Hin Hm)
        as (Hb & Hs & _ & Hbound).
      unfold arena_span. rewrite Hb, Hs, Hma. cbn. split; [reflexivity|].
      intros Hst. rewrite (Hbound Hst), Hma. reflexivity.
    + destruct H as (_ & He). rewrite He in Hin.
      apply in_app_or in Hin. destruct Hin as [Hin|Hin];
        [apply Hq1 in Hin|apply Hq2 in Hin]; congruence.
  - destruct H as (_ & He). rewrite He in Hin.
    apply Hq1 in Hin. congruence.
Qed.

(** Two completed runs of the three phases on the same path show the same
    events, the addresses of the planned buffers apart, and the same
    structure: one list of planned-buffer sizes and one output count. *)
Lemma load_and_execute_erased model_path s1 s2 planned1 planned2 :
  outcome (load_and_execute model_path s1) = inl planned1 ->
  outcome (load_and_execute model_path s2) = inl planned2 ->
  map erase_addresses (events (load_and_execute model_path s1))
  = map erase_addresses (events (load_and_execute model_path s2)) /\
  exists sizes n,
    planned_sizes (events (load_and_execute model_path s1)) = [sizes] /\
    planned_sizes (events (load_and_execute model_path s2)) = [sizes] /\
    output_counts (events (load_and_execute model_path s1)) = [n] /\
    output_counts (events (load_and_execute model_path s2)) = [n] /\
    sizes = map span_size planned1.
Proof.
  intros Ho1 Ho2.
  pose proof (load_and_execute_phases model_path s1) as H1.
  pose proof (load_and_execute_phases model_path s2) as H2.
  cbv zeta in H1, H2.
  destruct (resolve_method_stateless model_path s1) as [_ Hst].
  destruct (Hst s2) as [Hso Hse]. rewrite Hso, Hse in H2.
  pose proof (resolve_method_quiet model_path s1) as Hq1.
  pose proof (quiet_erased _ Hq1) as Hq1e.
  apply quiet_events in Hq1. destruct Hq1 as (_ & Hq1p & Hq1o & _).
  destruct (outcome (resolve_method model_path s1))
    as [[[program method_name] meta]|e];
    [|destruct H1 as (Ho & _); congruence].
  pose proof (assemble_memory_manager_quiet meta s1) as Hqa.
  pose proof (assemble_memory_manager_quiet meta s2) as Hqb.
  pose proof (quiet_erased _ Hqa) as Hqae.
  pose proof (quiet_erased _ Hqb) as Hqbe.
  apply quiet_events in Hqa. destruct Hqa as (_ & Hqap & Hqao & _).
  apply quiet_events in Hqb. destruct Hqb as (_ & Hqbp & Hqbo & _).
  destruct (outcome (assemble_memory_manager meta s1)) as [[bufs1 mm1]|e]
    eqn:Ha1; [|destruct H1 as (Ho & _); congruence].
  destruct (outcome (assemble_memory_manager meta s2)) as [[bufs2 mm2]|e]
    eqn:Ha2; [|destruct H2 as (Ho & _); congruence].
  destruct H1 as (Hr1 & _ & He1). destruct H2 as (Hr2 & _ & He2).
  destruct (assemble_memory_manager_erased _ _ _ _ _ _ _ Ha1 Ha2)
    as (Hmm & Hsz & Hev).
  destruct (run_method_erased program method_name mm1 mm2
              (final (assemble_memory_manager meta s1))
              (final (assemble_memory_manager meta s2)) Hmm) as (Hro & Hre).
  rewrite Ho1 in Hr1. rewrite Ho2 in Hr2.
  destruct (outcome (run_method program method_name mm1 _)) as [u1|e1]
    eqn:Hu1; [|discriminate Hr1].
  destruct (outcome (run_method program method_name mm2 _)) as [u2|e2]
    eqn:Hu2; [|discriminate Hr2].
  injection Hr1 as ->.
  destruct (run_method_structure _ _ _ _ _ Hu1) as (m1 & Hm1 & Hp1 & Hc1).
  destruct (run_method_structure _ _ _ _ _ Hu2) as (m2 & Hm2 & Hp2 & Hc2).
  rewrite Hm1 in Hm2. injection Hm2 as <-.
  split.
  - rewrite He1, He2, !map_app, Hq1e, Hqae, Hqbe, Hev, Hre. reflexivity.
  - exists (map span_size (ha_buffers (planned_memory mm1))),
           (outputs_size rt m1).
    rewrite He1, He2, !planned_sizes_app, !output_counts_app.
    rewrite Hq1p, Hq1o, Hqap, Hqao, Hqbp, Hqbo, Hp1, Hp2, Hc1, Hc2, Hsz.
    now repeat split.
Qed.

(** The memory manager a method is bound with is the one the second phase
    assembled, for the metadata of the method the first phase resolved. *)
Lemma load_and_execute_bound model_path s e mm :
  In e (events (load_and_execute model_path s)) ->
  step_of e = Some Bound ->
  manager_of e = Some mm ->
  exists program method_name meta planned_buffers,
    outcome (resolve_method model_path s)
    = inl (program, method_name, meta) /\
    outcome (assemble_memory_manager meta s) = inl (planned_buffers, mm).
Proof.
  intros Hin Hst Hm.
  pose proof (load_and_execute_phases model_path s) as H. cbv zeta in H.
  pose proof (resolve_method_quiet model_path s) as Hq1.
  rewrite Forall_forall in Hq1.
  destruct (outcome (resolve_method model_path s))
    as [[[program method_name] meta]|e1].
  - pose proof (assemble_memory_manager_quiet meta s) as Hq2.
    rewrite Forall_forall in Hq2.
    destruct (outcome (assemble_memory_manager meta s)) as [[bufs mm0]|e2]
      eqn:Ha.
    + destruct H as (_ & _ & He). rewrite He in Hin.
      apply in_app_or in Hin. destruct Hin as [Hin|Hin];
        [apply Hq1 in Hin; congruence|].
      apply in_app_or in Hin. destruct Hin as [Hin|Hin];
        [apply Hq2 in Hin; congruence|].
      destruct (run_method_managers _ _ _ _ _ _ Hin Hm)
        as (_ & _ & _ & Hbound).
      rewrite (Hbound Hst). now exists program, method_name, meta, bufs.
    + destruct H as (_ & He). rewrite He in Hin.
      apply in_app_or in Hin. destruct Hin as [Hin|Hin];
        [apply Hq1 in Hin|apply Hq2 in Hin]; congruence.
  - destruct H as (_ & He). rewrite He in Hin.
    apply Hq1 in Hin. congruence.
Qed.

(** A cycle is the three phases between a prologue and an epilogue that
    are no steps of the bound method, or, for a command line with extra
    arguments, the prologue alone.  After phases that complete the cycle
    runs to its end unless the profile cannot be written. *)
Lemma cycle_shape (c : Cycle) :
  exists pre post model_path,
    Forall (fun e => step_of e = None) pre /\
    Forall (fun e => step_of e = None) post /\
    ((forall s, cycle_events c s = pre /\ ~ cycle_completes c s) \/
     (forall s,
         match outcome (load_and_execute model_path s) with
         | inl _ =>
             cycle_events c s
             = pre ++ events (load_and_execute model_path s) ++ post /\
             (cycle_completes c s <-> profile_write_fails c = false)
         | inr _ =>
             cycle_events c s
             = pre ++ events (load_and_execute model_path s) /\
             ~ cycle_completes c s
         end)).
Proof.
  destruct c as [argv model_path prof_result_path|this jinputs].
  - destruct (Z.of_nat (List.length argv) =? 1) eqn:Hargc.
    + exists [Call_runtime_init],
        ([Call_DUMP_PROFILE_RESULTS]
           ++ (if negb (Z.of_nat (List.length (prof_data rt)) =? 0)
               then
                 if fopen rt prof_result_path
                 then [Write_file prof_result_path (prof_data rt);
                       Call_FreeInputs]
                 else []
               else [Call_FreeInputs])),
        model_path.
      split; [repeat constructor|]. split.
      { destruct (negb (Z.of_nat (List.length (prof_data rt)) =? 0));
          [destruct (fopen rt prof_result_path)|]; repeat constructor. }
      right. intros s.
      unfold cycle_events, cycle_completes, profile_write_fails, main.
      rewrite events_bind, outcome_bind. cbn [emit outcome final events].
      rewrite Hargc. cbn [negb]. rewrite events_bind, outcome_bind.
      destruct (outcome (load_and_execute model_path s)) as [planned|e].
      * destruct (negb (Z.of_nat (List.length (prof_data rt)) =? 0));
          [destruct (fopen rt prof_result_path)|]; cbn;
          (split; [reflexivity|]); split; congruence.
      * cbn. split; [reflexivity|discriminate].
    + eexists _, [], model_path.
      split; [|split; [constructor|]].
      2:{ left. intros s. unfold cycle_events, cycle_completes, main.
          rewrite events_bind, outcome_bind. cbn [emit outcome final events].
          rewrite Hargc. cbn. split; [reflexivity|discriminate]. }
      repeat constructor.
  - exists [], [Call_FreeInputs; Call_optionalNull], (model_path_ this).
    split; [constructor|]. split; [repeat constructor|].
    right. intros s.
    unfold cycle_events, cycle_completes, profile_write_fails, forward.
    rewrite events_unwinding, outcome_unwinding.
    rewrite events_bind, outcome_bind.
    destruct (outcome (load_and_execute (model_path_ this) s))
      as [planned|e]; cbn.
    + split; [reflexivity|]. split; [reflexivity|eauto].
    + split; [reflexivity|]. intros [v Hv]. discriminate Hv.
Qed.

(** C7.  In every cycle, of [main] or of [forward], the steps that concern
    the method come in one order: the method is bound with the assembled
    memory manager, its inputs are filled, it is executed, its outputs are
    read.  A cycle that stops early shows a start of that sequence, so it
    never executes before the inputs are filled and never executes twice;
    a cycle that runs to its end shows all four steps, each once; and the
    memory manager of the binding step is the one the runner assembled. *)
Theorem method_steps_in_order (c : Cycle) (s : State) :
  (exists n, steps (cycle_events c s) = firstn n canonical_steps) /\
  (cycle_completes c s -> steps (cycle_events c s) = canonical_steps) /\
  (forall e mm,
      In e (cycle_events c s) ->
      step_of e = Some Bound ->
      manager_of e = Some mm ->
      exists meta planned_buffers,
        outcome (assemble_memory_manager meta s)
        = inl (planned_buffers, mm)).
Proof.
  destruct (cycle_shape c) as (pre & post & model_path & Hpre & Hpost & H).
  pose proof Hpre as Hpre'. pose proof Hpost as Hpost'.
  rewrite Forall_forall in Hpre', Hpost'.
  apply quiet_events in Hpre. destruct Hpre as (Hpre & _).
  apply quiet_events in Hpost. destruct Hpost as (Hpost & _).
  destruct H as [H|H]; specialize (H s).
  - destruct H as [He Hn]. rewrite He, Hpre.
    split; [now exists 0%nat|]. split; [contradiction|].
    intros e mm Hin Hst _. apply Hpre' in Hin. congruence.
  - destruct (load_and_execute_steps model_path s) as [Hn Hc].
    assert (Hb : forall e mm,
               In e (pre ++ events (load_and_execute model_path s) ++ post) ->
               step_of e = Some Bound ->
               manager_of e = Some mm ->
               exists meta planned_buffers,
                 outcome (assemble_memory_manager meta s)
                 = inl (planned_buffers, mm)).
    { intros e mm Hin Hst Hm.
      apply in_app_or in Hin. destruct Hin as [Hin|Hin];
        [apply Hpre' in Hin; congruence|].
      apply in_app_or in Hin. destruct Hin as [Hin|Hin];
        [|apply Hpost' in Hin; congruence].
      destruct (load_and_execute_bound _ _ _ _ Hin Hst Hm)
        as (program & method_name & meta & bufs & _ & Ha).
      now exists meta, bufs. }
    destruct (outcome (load_and_execute model_path s)) as [planned|e];
      destruct H as [He Hd]; rewrite He, !steps_app, Hpre, ?Hpost,
                              ?app_nil_r; cbn [app].
    + split; [exact Hn|]. split; [intros _; now apply (Hc planned)|].
      exact Hb.
    + split; [exact Hn|]. split; [contradiction|].
      intros e' mm Hin. apply Hb.
      apply in_app_or in Hin. apply in_or_app.
      destruct Hin as [Hin|Hin]; [now left|right].
      apply in_or_app. now left.
Qed.

Lemma cycle_managers (c : Cycle) (s : State) e mm :
  In e (cycle_events c s) ->
  manager_of e = Some mm ->
  arena_span (method_allocator mm)
  = mkSpan method_allocator_pool (4 * 1024 * 1024) /\
  (step_of e = Some Bound -> ma_used (method_allocator mm) = 0).
Proof.
  intros Hin Hm.
  destruct (cycle_shape c) as (pre & post & model_path & Hpre & Hpost & H).
  apply quiet_events in Hpre. destruct Hpre as (_ & _ & _ & Hpre).
  apply quiet_events in Hpost. destruct Hpost as (_ & _ & _ & Hpost).
  rewrite Forall_forall in Hpre, Hpost.
  destruct H as [H|H]; specialize (H s).
  - destruct H as [He _]. rewrite He in Hin. apply Hpre in Hin. congruence.
  - destruct (outcome (load_and_execute model_path s)) as [planned|e'];
      destruct H as [He _]; rewrite He in Hin;
      repeat (apply in_app_or in Hin; destruct Hin as [Hin|Hin]);
      try (apply Hpre in Hin; congruence);
      try (apply Hpost in Hin; congruence);
      eapply load_and_execute_managers; eassumption.
Qed.

(** C5.  Throughout a cycle the metadata arena is one block: whenever the
    engine is handed the memory manager, to bind the method or to execute
    it, the method allocator sits on the static pool, [4 * 1024 * 1024]
    bytes from the address of [method_allocator_pool]; and when the method
    is bound nothing has been handed out of it yet. *)
Theorem metadata_arena_fixed (c : Cycle) (s : State) e mm :
  In e (cycle_events c s) ->
  manager_of e = Some mm ->
  ma_base (method_allocator mm) = method_allocator_pool /\
  ma_size (method_allocator mm) = 4 * 1024 * 1024 /\
  (step_of e = Some Bound -> high_water_mark (method_allocator mm) = 0).
Proof.
  intros Hin Hm.
  destruct (cycle_managers c s e mm Hin Hm) as [Ha Hu].
  unfold arena_span in Ha. injection Ha as Hb Hs.
  repeat split; assumption.
Qed.

(** C10.  Any two cycles of the process, runs of [main] or calls of
    [forward], from whatever state, put their metadata arena on the same
    storage: the memory managers they show have method allocators with one
    base address and one capacity, those of the static pool. *)
Theorem load_cycles_share_the_pool (c1 c2 : Cycle) (s1 s2 : State)
        e1 mm1 e2 mm2 :
  In e1 (cycle_events c1 s1) -> manager_of e1 = Some mm1 ->
  In e2 (cycle_events c2 s2) -> manager_of e2 = Some mm2 ->
  arena_span (method_allocator mm1) = arena_span (method_allocator mm2) /\
  arena_span (method_allocator mm1) = pool_span.
Proof.
  intros Hin1 Hm1 Hin2 Hm2.
  destruct (cycle_managers c1 s1 e1 mm1 Hin1 Hm1) as [H1 _].
  destruct (cycle_managers c2 s2 e2 mm2 Hin2 Hm2) as [H2 _].
  rewrite H1, H2. split; reflexivity.
Qed.

(** C6.  A cycle repeated with the same inputs, from whatever state the
    earlier cycles left, shows the same structure whenever both runs reach
    their end: the same events, the addresses of the planned buffers apart,
    hence the same number of planned buffers with the same size per id and
    the same number of outputs. *)
Theorem repeated_cycle_same_structure (c : Cycle) (s1 s2 : State) :
  cycle_completes c s1 ->
  cycle_completes c s2 ->
  map erase_addresses (cycle_events c s1)
  = map erase_addresses (cycle_events c s2) /\
  exists sizes n,
    planned_sizes (cycle_events c s1) = [sizes] /\
    planned_sizes (cycle_events c s2) = [sizes] /\
    output_counts (cycle_events c s1) = [n] /\
    output_counts (cycle_events c s2) = [n].
Proof.
  intros Hc1 Hc2.
  destruct (cycle_shape c) as (pre & post & model_path & Hpre & Hpost & H).
  destruct H as [H|H]; [destruct (H s1) as [_ Hn]; contradiction|].
  pose proof (H s1) as H1. pose proof (H s2) as H2.
  destruct (outcome (load_and_execute model_path s1)) as [planned1|e]
    eqn:Ho1; [|destruct H1 as [_ Hn]; contradiction].
  destruct (outcome (load_and_execute model_path s2)) as [planned2|e]
    eqn:Ho2; [|destruct H2 as [_ Hn]; contradiction].
  destruct H1 as [He1 _]. destruct H2 as [He2 _].
  destruct (load_and_execute_erased _ _ _ _ _ Ho1 Ho2)
    as (Her & sizes & n & Hp1 & Hp2 & Hn1 & Hn2 & _).
  apply quiet_events in Hpre. destruct Hpre as (_ & Hprep & Hpreo & _).
  apply quiet_events in Hpost. destruct Hpost as (_ & Hpostp & Hposto & _).
  split.
  - rewrite He1, He2, !map_app, Her. reflexivity.
  - exists sizes, n.
    rewrite He1, He2, !planned_sizes_app, !output_counts_app.
    rewrite Hprep, Hpreo, Hpostp, Hposto, Hp1, Hp2, Hn1, Hn2.
    now repeat split.
Qed.

(** ** The JNI entry point *)

(** C8, as the code has it.  [forward] runs the load/execute flow of the
    command-line runner on the model at [model_path_]: the events of the
    three phases are a common segment of both runs, and both stop where the
    phases stop.  After phases that complete, [main] dumps the profile and
    returns 0, unless the profile file cannot be opened, where it ends;
    [forward] does not read the inputs it is given from Java, and when it
    returns it returns what the Java method [optionalNull] gives, whatever
    the outputs are. *)
Theorem forward_runs_the_flow_and_returns_optionalNull
        (this : PytorchJni) (jinputs : list JEValue) (s : State) :
  let core := load_and_execute (model_path_ this) s in
  (forall jinputs', forward this jinputs' s = forward this jinputs s) /\
  (forall v, outcome (forward this jinputs s) = inl v ->
             v = jMethodOptionalNull rt) /\
  (forall program_name prof_result_path,
      let cli := main [program_name] (model_path_ this) prof_result_path s in
      match outcome core with
      | inl _ =>
          outcome (forward this jinputs s) = inl (jMethodOptionalNull rt) /\
          events (forward this jinputs s)
          = events core ++ [Call_FreeInputs; Call_optionalNull] /\
          if profile_write_fails
               (CLI [program_name] (model_path_ this) prof_result_path)
          then
            outcome cli = inr (NullStream prof_result_path) /\
            events cli
            = Call_runtime_init :: events core ++ [Call_DUMP_PROFILE_RESULTS]
          else
            outcome cli = inl 0 /\
            exists dump,
              events cli
              = Call_runtime_init :: events core ++ dump ++ [Call_FreeInputs]
      | inr e =>
          outcome (forward this jinputs s) = inr e /\
          events (forward this jinputs s) = events core /\
          outcome cli = inr e /\
          events cli = Call_runtime_init :: events core
      end).
Proof.
  cbv zeta. split; [reflexivity|]. split.
  - unfold forward. rewrite outcome_unwinding, outcome_bind.
    destruct (outcome (load_and_execute (model_path_ this) s));
      cbn; intros v Hv; [now injection Hv|discriminate Hv].
  - intros program_name prof_result_path.
    unfold forward, main, profile_write_fails.
    rewrite outcome_unwinding, events_unwinding.
    rewrite !outcome_bind, !events_bind. cbn [emit outcome final events].
    cbn [List.length Z.of_nat Pos.of_succ_nat Z.eqb Pos.eqb negb].
    rewrite !outcome_bind, !events_bind.
    destruct (outcome (load_and_execute (model_path_ this) s))
      as [planned|e].
    + split; [reflexivity|]. split; [reflexivity|].
      destruct (negb (Z.of_nat (List.length (prof_data rt)) =? 0));
        [destruct (fopen rt prof_result_path)|]; cbn.
      * split; [reflexivity|].
        exists [Call_DUMP_PROFILE_RESULTS;
                Write_file prof_result_path (prof_data rt)].
        reflexivity.
      * split; reflexivity.
      * split; [reflexivity|].
        exists [Call_DUMP_PROFILE_RESULTS]. reflexivity.
    + now repeat split.
Qed.

(** A program that failed to parse ends the first phase: the failure is
    logged, the model is logged as loaded all the same, and the run ends
    where [program->] takes the value of the failed result, before
    [get_method_name] is called. *)
Lemma resolve_method_after_parse_failure model_path ld e s :
  FileDataLoader_from rt model_path = Ok ld ->
  Program_load rt ld = Failed e ->
  events (resolve_method model_path s)
  = [Call_FileDataLoader_from model_path; Call_Program_load;
     ET_LOG LogError (Msg_failed_to_parse model_path);
     ET_LOG Info (Msg_model_loaded model_path)] /\
  outcome (resolve_method model_path s)
  = inr (FailedResultAccess At_program).
Proof.
  intros Hl Hp. unfold resolve_method. rewrite Hl. cbn. rewrite Hp. cbn.
  now split.
Qed.

(** * Further properties of the runner *)

(** ** The command line *)

Lemma string_append_assoc (a b c : string) :
  ((a ++ b) ++ c = a ++ (b ++ c))%string.
Proof. induction a as [|ch a IH]; cbn; [reflexivity|now rewrite IH]. Qed.

Lemma fold_left_join_args (args : list string) : forall msg,
  fold_left (fun msg arg => (msg ++ " " ++ arg)%string) args msg
  = (msg ++ join_args args)%string.
Proof.
  induction args as [|arg args IH]; intros msg; cbn [fold_left join_args].
  - induction msg as [|ch msg IHm]; cbn; [reflexivity|now rewrite <- IHm].
  - rewrite IH. rewrite !string_append_assoc. reflexivity.
Qed.

(** X1.  With anything but exactly the program name left on the command
    line, [main] returns 1 after one error line, which lists the arguments
    after the program name, each after a space; it loads nothing and
    leaves the state as it was. *)
Theorem main_extra_arguments_rejected
        (argv : list string) (FLAGS_model_path FLAGS_prof_result_path : string)
        (s : State) :
  List.length argv <> 1%nat ->
  main argv FLAGS_model_path FLAGS_prof_result_path s
  = mkRun (inl 1) s
          [Call_runtime_init;
           ET_LOG LogError
                  (Msg_extra_args
                     ("Extra commandline args:" ++ join_args (tl argv)))].
Proof.
  intros Hargc. unfold main, bind, emit. cbn.
  destruct (Z.of_nat (List.length argv) =? 1) eqn:E;
    [apply Z.eqb_eq in E; lia|].
  cbn. rewrite fold_left_join_args. reflexivity.
Qed.

(** ** The phases of a cycle *)

Lemma resolve_method_phase model_path s :
  Forall (fun e => phase_of e = Resolving)
         (events (resolve_method model_path s)).
Proof.
  unfold resolve_method.
  destruct (FileDataLoader_from rt model_path) as [ld|e]; cbn;
    [|repeat constructor].
  destruct (Program_load rt ld) as [p|e]; cbn; [|repeat constructor].
  destruct (get_method_name rt p 0) as [name|e]; cbn; [|repeat constructor].
  destruct (method_meta rt p name) as [meta|e]; cbn; repeat constructor.
Qed.

(** How the first phase ends, by what the runtime gives. *)
Lemma resolve_method_outcome model_path s :
  outcome (resolve_method model_path s)
  = match FileDataLoader_from rt model_path with
    | Failed e => inr (Aborted (Chk_loader e))
    | Ok ld =>
        match Program_load rt ld with
        | Failed _ => inr (FailedResultAccess At_program)
        | Ok p =>
            match get_method_name rt p 0 with
            | Failed _ => inr (Aborted Chk_no_methods)
            | Ok name =>
                match method_meta rt p name with
                | Failed e => inr (Aborted (Chk_method_meta name e))
                | Ok meta => inl (p, name, meta)
                end
            end
        end
    end.
Proof.
  unfold resolve_method.
  destruct (FileDataLoader_from rt model_path) as [ld|e]; cbn;
    [|reflexivity].
  destruct (Program_load rt ld) as [p|e]; cbn; [|reflexivity].
  destruct (get_method_name rt p 0) as [name|e]; cbn; [|reflexivity].
  destruct (method_meta rt p name) as [meta|e]; cbn; reflexivity.
Qed.

Lemma planned_loop_phase meta :
  forall todo id bufs spans s,
    Forall (fun e => phase_of e = Sizing)
           (events (planned_loop meta todo id bufs spans s)).
Proof.
  induction todo as [|todo IH]; intros id bufs spans s; [constructor|].
  cbn [planned_loop].
  destruct (memory_planned_buffer_size meta id) as [sz|err];
    [|constructor].
  unfold bind, get, ret, emit, make_unique. cbn.
  destruct (operator_new (live s) (to_size_t sz)) as [p|]; cbn.
  - constructor; [reflexivity|apply IH].
  - repeat constructor.
Qed.

Lemma assemble_memory_manager_phase meta s :
  Forall (fun e => phase_of e = Sizing)
         (events (assemble_memory_manager meta s)).
Proof.
  unfold assemble_memory_manager. rewrite events_bind.
  pose proof (planned_loop_phase
                meta (Z.to_nat (num_memory_planned_buffers meta)) 0 [] [] s)
    as Hq.
  destruct (outcome (planned_loop meta _ 0 [] [] s)) as [[bufs spans]|e];
    [|exact Hq].
  cbn. now rewrite app_nil_r.
Qed.

(** The lines [print_outputs] prints: the outputs, numbered from the index
    it starts at. *)
Lemma print_outputs_lines (g : Z -> EValue) (n : nat) : forall k s,
  printed_lines
    (events (print_outputs (Z.of_nat k)
                           (map (fun i => g (Z.of_nat i)) (seq k n)) s))
  = map (fun i => (Z.of_nat i, g (Z.of_nat i))) (seq k n) /\
  Forall (fun e => phase_of e = Running)
         (events (print_outputs (Z.of_nat k)
                                (map (fun i => g (Z.of_nat i)) (seq k n)) s)).
Proof.
  induction n as [|n IH]; intros k s; [split; constructor|].
  cbn [seq map print_outputs]. unfold bind, emit. cbn.
  replace (Z.of_nat k + 1) with (Z.of_nat (S k)) by lia.
  destruct (IH (S k) s) as [H1 H2]. split.
  - now rewrite H1.
  - constructor; [reflexivity|exact H2].
Qed.

Lemma print_outputs_only_prints outputs : forall i s e,
  In e (events (print_outputs i outputs s)) ->
  exists j v, e = Print_output j v.
Proof.
  induction outputs as [|v outputs IH]; intros i s e H; [destruct H|].
  cbn [print_outputs] in H. unfold bind, emit in H. cbn in H.
  destruct H as [<-|H]; [now exists i, v|].
  eapply IH. exact H.
Qed.


Lemma run_method_phase program method_name memory_manager s :
  Forall (fun e => phase_of e = Running)
         (events (run_method program method_name memory_manager s)).
Proof.
  run_method_cases program method_name memory_manager;
    repeat (constructor; [reflexivity|]); try constructor.
  exact (proj2 (print_outputs_lines (get_outputs_value rt m) _ 0%nat s)).
Qed.



(** A completed third phase prints the outputs of the bound method, one
    line each, in index order. *)
Lemma run_method_prints program method_name memory_manager s u :
  outcome (run_method program method_name memory_manager s) = inl u ->
  exists m,
    binds program method_name memory_manager m /\
    execute rt m = Error_Ok /\
    get_outputs_status rt m (outputs_size rt m) = Error_Ok /\
    printed_lines (events (run_method program method_name memory_manager s))
    = outputs_of m.
Proof.
  unfold binds.
  run_method_cases program method_name memory_manager; try discriminate.
  intros _. exists m.
  apply Z.eqb_eq in Hexec. apply Z.eqb_eq in Hget.
  repeat split; try assumption.
  exact (proj1 (print_outputs_lines (get_outputs_value rt m) _ 0%nat s)).
Qed.

(** Where an event of the three phases comes from, by its phase. *)
Lemma load_and_execute_event model_path s e :
  In e (events (load_and_execute model_path s)) ->
  match phase_of e with
  | Framing => False
  | Resolving => In e (events (resolve_method model_path s))
  | Sizing =>
      exists program method_name meta,
        outcome (resolve_method model_path s)
        = inl (program, method_name, meta) /\
        In e (events (assemble_memory_manager meta s))
  | Running =>
      exists program method_name meta planned_buffers mm,
        outcome (resolve_method model_path s)
        = inl (program, method_name, meta) /\
        outcome (assemble_memory_manager meta s)
        = inl (planned_buffers, mm) /\
        In e (events (run_method program method_name mm
                                 (final (assemble_memory_manager meta s))))
  end.
Proof.
  intros Hin.
  pose proof (load_and_execute_phases model_path s) as H. cbv zeta in H.
  pose proof (resolve_method_phase model_path s) as H1.
  rewrite Forall_forall in H1.
  destruct (outcome (resolve_method model_path s))
    as [[[program method_name] meta]|e1] eqn:Hr.
  - pose proof (assemble_memory_manager_phase meta s) as H2.
    rewrite Forall_forall in H2.
    destruct (outcome (assemble_memory_manager meta s)) as [[bufs mm]|e2]
      eqn:Ha.
    + destruct H as (_ & _ & He). rewrite He in Hin.
      pose proof (run_method_phase program method_name mm
                    (final (assemble_memory_manager meta s))) as H3.
      rewrite Forall_forall in H3.
      apply in_app_or in Hin. destruct Hin as [Hin|Hin];
        [rewrite (H1 _ Hin); exact Hin|].
      apply in_app_or in Hin. destruct Hin as [Hin|Hin].
      * rewrite (H2 _ Hin). now exists program, method_name, meta.
      * rewrite (H3 _ Hin).
        exists program, method_name, meta, bufs, mm.
        repeat split; assumption || reflexivity.
    + destruct H as (_ & He). rewrite He in Hin.
      apply in_app_or in Hin. destruct Hin as [Hin|Hin];
        [rewrite (H1 _ Hin); exact Hin|].
      rewrite (H2 _ Hin). now exists program, method_name, meta.
  - destruct H as (_ & He). rewrite He in Hin.
    rewrite (H1 _ Hin). exact Hin.
Qed.

(** A cycle that gets to load a model is the three phases, framed: what it
    shows, how it ends and the state it leaves follow from theirs.  After
    phases that complete it runs to its end, unless the profile cannot be
    written, where it ends on the null stream. *)
Lemma cycle_frame (c : Cycle) :
  loads_a_model c ->
  exists pre post,
    Forall (fun e => phase_of e = Framing) pre /\
    Forall (fun e => phase_of e = Framing) post /\
    written_files pre = [] /\
    written_files post
    = match c with
      | CLI _ _ prof_result_path =>
          if negb (Z.of_nat (List.length (prof_data rt)) =? 0)
             && fopen rt prof_result_path
          then [(prof_result_path, prof_data rt)] else []
      | JNI _ _ => []
      end /\
    forall s,
      match outcome (load_and_execute (cycle_path c) s) with
      | inl planned =>
          cycle_events c s
          = pre ++ events (load_and_execute (cycle_path c) s) ++ post /\
          if profile_write_fails c
          then
            ~ cycle_completes c s /\
            (forall e',
                cycle_stops c s e' <-> e' = NullStream (cycle_profile_path c))
          else
            cycle_completes c s /\
            (forall e, ~ cycle_stops c s e) /\
            cycle_final c s
            = final (release planned
                             (final (load_and_execute (cycle_path c) s)))
      | inr e =>
          cycle_events c s
          = pre ++ events (load_and_execute (cycle_path c) s) /\
          ~ cycle_completes c s /\
          (forall e', cycle_stops c s e' <-> e' = e)
      end.
Proof.
  destruct c as [argv model_path prof_result_path|this jinputs];
    intros Hloads; cbn in Hloads.
  - exists [Call_runtime_init],
      ([Call_DUMP_PROFILE_RESULTS]
         ++ (if negb (Z.of_nat (List.length (prof_data rt)) =? 0)
             then
               if fopen rt prof_result_path
               then [Write_file prof_result_path (prof_data rt);
                     Call_FreeInputs]
               else []
             else [Call_FreeInputs])).
    split; [repeat constructor|].
    split; [destruct (negb _); [destruct (fopen rt _)|];
            repeat constructor|].
    split; [reflexivity|].
    split; [destruct (negb _); [destruct (fopen rt _)|]; reflexivity|].
    intros s.
    unfold cycle_events, cycle_completes, cycle_stops, cycle_final,
      cycle_path, cycle_profile_path, profile_write_fails, main.
    rewrite events_bind, outcome_bind, final_bind.
    cbn [emit outcome final events]. rewrite Hloads.
    cbn [Z.of_nat Pos.of_succ_nat Z.eqb Pos.eqb negb].
    rewrite events_bind, outcome_bind, final_bind.
    destruct (outcome (load_and_execute model_path s)) as [planned|e].
    + destruct (negb (Z.of_nat (List.length (prof_data rt)) =? 0));
        [destruct (fopen rt prof_result_path)|]; cbn;
        (split; [reflexivity|]).
      * split; [reflexivity|]. split; [discriminate|reflexivity].
      * split; [discriminate|].
        intros e'. split; [intros H; now injection H|now intros ->].
      * split; [reflexivity|]. split; [discriminate|reflexivity].
    + cbn. split; [reflexivity|]. split; [discriminate|].
      intros e'. split; [intros H; now injection H|now intros ->].
  - exists [], [Call_FreeInputs; Call_optionalNull].
    split; [constructor|]. split; [repeat constructor|].
    split; [reflexivity|]. split; [reflexivity|].
    intros s.
    unfold cycle_events, cycle_completes, cycle_stops, cycle_final,
      cycle_path, profile_write_fails, forward.
    rewrite events_unwinding, outcome_unwinding, final_unwinding.
    rewrite events_bind, outcome_bind, final_bind.
    destruct (outcome (load_and_execute (model_path_ this) s))
      as [planned|e]; cbn.
    + split; [reflexivity|]. split; [eauto|].
      split; [discriminate|reflexivity].
    + split; [reflexivity|]. split; [intros [v Hv]; discriminate Hv|].
      intros e'. split; [intros H; now injection H|now intros ->].
Qed.

(** An event of a cycle that is not of its frame is an event of its three
    phases. *)
Lemma cycle_event_of_phases (c : Cycle) (s : State) e :
  In e (cycle_events c s) ->
  phase_of e <> Framing ->
  In e (events (load_and_execute (cycle_path c) s)).
Proof.
  intros Hin Hph.
  assert (Hl : loads_a_model c).
  { destruct c as [argv model_path prof_result_path|this jinputs];
      [|exact I].
    destruct (Nat.eq_dec (List.length argv) 1) as [E|E]; [exact E|].
    exfalso. cbn in Hin. unfold main, bind, emit in Hin. cbn in Hin.
    destruct (Z.of_nat (List.length argv) =? 1) eqn:Hargc;
      [apply Z.eqb_eq in Hargc; lia|].
    cbn in Hin. destruct Hin as [<-|[<-|[]]]; now apply Hph. }
  destruct (cycle_frame c Hl) as (pre & post & Hpre & Hpost & _ & _ & H).
  rewrite Forall_forall in Hpre, Hpost.
  specialize (H s).
  destruct (outcome (load_and_execute (cycle_path c) s)) as [planned|e'];
    destruct H as (He & _); rewrite He in Hin;
    repeat (apply in_app_or in Hin; destruct Hin as [Hin|Hin]);
    try assumption;
    try (apply Hpre in Hin; contradiction);
    try (apply Hpost in Hin; contradiction).
Qed.

(** ** Which method is run, and on what *)

(** Conjunctions of facts at hand, conjunct by conjunct. *)
Ltac conjuncts :=
  repeat match goal with |- _ /\ _ => split end;
  try assumption; try reflexivity.

Lemma run_method_binds_named program method_name memory_manager s name mm :
  In (Call_load_method name mm)
     (events (run_method program method_name memory_manager s)) ->
  name = method_name /\ mm = memory_manager.
Proof.
  run_method_cases program method_name memory_manager; intros H;
    repeat match goal with
           | H : _ \/ _ |- _ => destruct H as [H|H]; try discriminate H
           | H : False |- _ => destruct H
           end;
    try (injection H as <- <-; now split).
  apply print_outputs_only_prints in H. destruct H as (j & w & E).
  discriminate E.
Qed.

(** X2.  The method a cycle binds is the first method of the program
    parsed from the file at the cycle's path, and the memory manager it is
    bound with holds one planned buffer per id that method's metadata
    reports, each of the size the metadata declares for the id (converted
    to [size_t]). *)
Theorem bound_method_is_first_method (c : Cycle) (s : State) name mm :
  In (Call_load_method name mm) (cycle_events c s) ->
  exists program meta,
    resolved (cycle_path c) program name meta /\
    let regions := ha_buffers (planned_memory mm) in
    List.length regions = Z.to_nat (num_memory_planned_buffers meta) /\
    forall id region,
      nth_error regions id = Some region ->
      exists sz,
        memory_planned_buffer_size meta (Z.of_nat id) = Ok sz /\
        span_size region = to_size_t sz.
Proof.
  intros Hin.
  apply cycle_event_of_phases in Hin; [|discriminate].
  apply load_and_execute_event in Hin. cbn [phase_of] in Hin.
  destruct Hin as (program & method_name & meta & bufs & mm0 & Hr & Ha & Hin).
  apply run_method_binds_named in Hin. destruct Hin as [-> ->].
  exists program, meta. split; [now apply (resolve_method_done _ s)|].
  destruct (assemble_memory_manager_built _ _ _ _ Ha)
    as (Hb & _ & _ & Hlen & _).
  split; [exact Hlen|].
  intros id region Hn.
  destruct (built_sizes _ _ _ _ _ Hb _ _ Hn) as (sz & Hsz & Hs).
  exists sz. now split.
Qed.



(** ** What a cycle prints and writes *)

Lemma printed_lines_app (t1 t2 : list (Event EValue)) :
  printed_lines (t1 ++ t2) = printed_lines t1 ++ printed_lines t2.
Proof.
  induction t1 as [|e t1 IH]; [reflexivity|].
  destruct e; cbn; now rewrite IH.
Qed.

Lemma written_files_app (t1 t2 : list (Event EValue)) :
  written_files (t1 ++ t2) = written_files t1 ++ written_files t2.
Proof.
  induction t1 as [|e t1 IH]; [reflexivity|].
  destruct e; cbn; now rewrite IH.
Qed.

Lemma printed_lines_none (t : list (Event EValue)) :
  Forall (fun e => phase_of e <> Running) t -> printed_lines t = [].
Proof.
  induction 1 as [|e t He Ht IH]; [reflexivity|].
  destruct e; cbn; try assumption. now contradiction He.
Qed.

Lemma written_files_none (t : list (Event EValue)) :
  Forall (fun e => phase_of e <> Framing) t -> written_files t = [].
Proof.
  induction 1 as [|e t He Ht IH]; [reflexivity|].
  destruct e; cbn; try assumption. now contradiction He.
Qed.

Lemma Forall_phase_other (ph ph' : Phase) (t : list (Event EValue)) :
  ph <> ph' ->
  Forall (fun e => phase_of e = ph) t ->
  Forall (fun e => phase_of e <> ph') t.
Proof.
  intros Hne H. eapply Forall_impl; [|exact H].
  intros e He. cbn beta in He. congruence.
Qed.

(** The events of the three phases are none of the frame. *)
Lemma load_and_execute_not_framing model_path s :
  Forall (fun e => phase_of e <> Framing)
         (events (load_and_execute model_path s)).
Proof.
  apply Forall_forall. intros e Hin Hph.
  apply load_and_execute_event in Hin. now rewrite Hph in Hin.
Qed.

(** X5.  A cycle that runs to its end prints exactly the outputs of the
    method it bound and executed: one line per index below [outputs_size],
    in index order, each with the value read back at that index. *)
Theorem completed_cycle_prints_outputs (c : Cycle) (s : State) :
  cycle_completes c s ->
  exists program name meta mm m,
    resolved (cycle_path c) program name meta /\
    binds program name mm m /\
    execute rt m = Error_Ok /\
    get_outputs_status rt m (outputs_size rt m) = Error_Ok /\
    printed_lines (cycle_events c s) = outputs_of m.
Proof.
  intros Hc.
  assert (Hl : loads_a_model c).
  { destruct c as [argv model_path prof_result_path|this jinputs];
      [|exact I].
    destruct (Nat.eq_dec (List.length argv) 1) as [E|E]; [exact E|].
    exfalso. cbn in Hc. unfold main, bind, emit in Hc. cbn in Hc.
    destruct (Z.of_nat (List.length argv) =? 1) eqn:Hargc;
      [apply Z.eqb_eq in Hargc; lia|].
    discriminate Hc. }
  destruct (cycle_frame c Hl) as (pre & post & Hpre & Hpost & _ & _ & H).
  specialize (H s).
  destruct (outcome (load_and_execute (cycle_path c) s)) as [planned|e0]
    eqn:Ho; [|destruct H as (_ & Hn & _); contradiction].
  destruct H as (He & _).
  pose proof (load_and_execute_phases (cycle_path c) s) as Hp.
  cbv zeta in Hp.
  pose proof (resolve_method_phase (cycle_path c) s) as H1.
  destruct (outcome (resolve_method (cycle_path c) s))
    as [[[program name] meta]|e1] eqn:Hr;
    [|destruct Hp as (Hp & _); rewrite Ho in Hp; discriminate Hp].
  pose proof (assemble_memory_manager_phase meta s) as H2.
  destruct (outcome (assemble_memory_manager meta s)) as [[bufs mm]|e2]
    eqn:Ha; [|destruct Hp as (Hp & _); rewrite Ho in Hp; discriminate Hp].
  destruct Hp as (Hp & _ & Hev). rewrite Ho in Hp.
  destruct (outcome (run_method program name mm _)) as [u|e3] eqn:Hrun;
    [|discriminate Hp].
  destruct (run_method_prints _ _ _ _ _ Hrun) as (m & Hb & Hx & Hg & Hpr).
  exists program, name, meta, mm, m.
  split; [now apply (resolve_method_done _ s)|].
  conjuncts.
  rewrite He, Hev, !printed_lines_app, Hpr.
  rewrite (printed_lines_none pre), (printed_lines_none post),
    (printed_lines_none (events (resolve_method _ _))),
    (printed_lines_none (events (assemble_memory_manager _ _))).
  - cbn. now rewrite app_nil_r.
  - eapply Forall_phase_other; [|exact H2]. discriminate.
  - eapply Forall_phase_other; [|exact H1]. discriminate.
  - eapply Forall_phase_other; [|exact Hpost]. discriminate.
  - eapply Forall_phase_other; [|exact Hpre]. discriminate.
Qed.

(** A run whose profile cannot be written never frees the inputs. *)
Lemma no_FreeInputs_when_profile_write_fails (c : Cycle) (s : State) :
  profile_write_fails c = true ->
  ~ In Call_FreeInputs (cycle_events c s).
Proof.
  destruct c as [argv model_path prof_result_path|this jinputs];
    [|discriminate].
  cbn [profile_write_fails]. intros Hw.
  apply andb_true_iff in Hw. destruct Hw as [Hw1 Hw2].
  apply negb_true_iff in Hw2.
  pose proof (load_and_execute_not_framing model_path s) as Hnf.
  rewrite Forall_forall in Hnf.
  unfold cycle_events, main.
  rewrite events_bind. cbn [emit outcome final events].
  destruct (Z.of_nat (List.length argv) =? 1).
  - cbn [negb]. rewrite events_bind.
    destruct (outcome (load_and_execute model_path s)) as [planned|e].
    + unfold bind, emit. cbn. rewrite Hw1, Hw2. cbn.
      intros [E|Hin]; [discriminate E|].
      apply in_app_or in Hin. destruct Hin as [Hin|[E|[]]];
        [now apply Hnf in Hin|discriminate E].
    + cbn. intros [E|Hin]; [discriminate E|]. now apply Hnf in Hin.
  - cbn. intros [E|[E|[]]]; discriminate E.
Qed.

(** X6.  The profile is written by [main] only, at most once, after a run
    that got to its end: to [FLAGS_prof_result_path], all the profiler's
    bytes, when there are any, and then the file did open; no file when
    there are none.  A run of [main] that stops short writes no file, and
    [forward] never writes one.  When there are bytes and the file does
    not open, the run never gets to its end and never frees the inputs. *)
Theorem profile_written_at_the_end_only (c : Cycle) (s : State) :
  match c with
  | CLI _ _ prof_result_path =>
      (cycle_completes c s ->
       written_files (cycle_events c s)
       = match prof_data rt with
         | [] => []
         | _ :: _ => [(prof_result_path, prof_data rt)]
         end /\
       (prof_data rt <> [] -> fopen rt prof_result_path = true)) /\
      (~ cycle_completes c s -> written_files (cycle_events c s) = []) /\
      (prof_data rt <> [] -> fopen rt prof_result_path = false ->
       ~ cycle_completes c s /\ ~ In Call_FreeInputs (cycle_events c s))
  | JNI _ _ => written_files (cycle_events c s) = []
  end.
Proof.
  assert (Hcases : loads_a_model c \/
                   (written_files (cycle_events c s) = [] /\
                    ~ cycle_completes c s /\
                    exists argv mp pp, c = CLI argv mp pp)).
  { destruct c as [argv model_path prof_result_path|this jinputs];
      [|now left].
    destruct (Nat.eq_dec (List.length argv) 1) as [E|E]; [now left|].
    right. cbn. unfold main, bind, emit. cbn.
    destruct (Z.of_nat (List.length argv) =? 1) eqn:Hargc;
      [apply Z.eqb_eq in Hargc; lia|].
    cbn. split; [reflexivity|]. split; [discriminate|eauto]. }
  assert (Hfree : profile_write_fails c = true ->
                  ~ In Call_FreeInputs (cycle_events c s))
    by apply no_FreeInputs_when_profile_write_fails.
  destruct Hcases as [Hl|(Hw & Hn & argv & mp & pp & ->)].
  2:{ split; [contradiction|]. split; [now intros _|].
      intros Hd Hf. split; [exact Hn|]. apply Hfree. cbn.
      rewrite Hf. destruct (prof_data rt); [contradiction|reflexivity]. }
  destruct (cycle_frame c Hl) as (pre & post & _ & _ & Hwpre & Hwpost & H).
  specialize (H s).
  pose proof (written_files_none
                _ (load_and_execute_not_framing (cycle_path c) s)) as Hcore.
  destruct c as [argv model_path prof_result_path|this jinputs].
  2:{ destruct (outcome (load_and_execute _ s)) as [planned|e0];
        destruct H as (He & _);
        rewrite He, !written_files_app, Hwpre, Hcore, ?Hwpost; reflexivity. }
  cbn [profile_write_fails cycle_profile_path] in H, Hfree.
  destruct (outcome (load_and_execute _ s)) as [planned|e0].
  - destruct H as (He & H).
    destruct (prof_data rt) as [|b data] eqn:Hd.
    + cbn in H. destruct H as (Hc & _).
      split; [intros _; split; [|contradiction]|].
      * rewrite He, !written_files_app, Hwpre, Hcore, Hwpost. reflexivity.
      * split; [contradiction|]. intros Hx. now contradiction Hx.
    + cbn [List.length Z.of_nat Z.eqb negb andb] in H, Hwpost, Hfree.
      destruct (fopen rt prof_result_path) eqn:Hf; cbn in H, Hwpost, Hfree.
      * destruct H as (Hc & _).
        split; [intros _; split; [|reflexivity]|].
        -- rewrite He, !written_files_app, Hwpre, Hcore, Hwpost.
           reflexivity.
        -- split; [contradiction|]. intros _ Hx. discriminate Hx.
      * destruct H as (Hc & _).
        split; [contradiction|]. split.
        -- intros _.
           rewrite He, !written_files_app, Hwpre, Hcore, Hwpost.
           reflexivity.
        -- intros _ _. split; [exact Hc|]. now apply Hfree.
  - destruct H as (He & Hc & _).
    split; [contradiction|]. split.
    + intros _. rewrite He, !written_files_app, Hwpre, Hcore. reflexivity.
    + intros Hd Hf. split; [exact Hc|]. apply Hfree.
      rewrite Hf. destruct (prof_data rt); [contradiction|reflexivity].
Qed.

(** ** The heap and the memory around the planned buffers *)

Lemma Span_eqb_eq (a b : Span) : Span_eqb a b = true <-> a = b.
Proof.
  unfold Span_eqb. destruct a as [da sa], b as [db sb]. cbn.
  rewrite andb_true_iff, !Z.eqb_eq. split.
  - intros [-> ->]. reflexivity.
  - intros H. injection H as -> ->. now split.
Qed.

(** Releasing a block that is among the first blocks of the live list
    takes it from among them. *)
Lemma remove_block_among (a : Span) (l : list Span) : forall P,
  In a P ->
  exists P', remove_block a (P ++ l) = P' ++ l /\ Permutation P (a :: P').
Proof.
  induction P as [|c P IH]; intros Hin; [destruct Hin|].
  cbn [app remove_block].
  destruct (Span_eqb a c) eqn:E.
  - apply Span_eqb_eq in E. subst c. exists P. now split.
  - assert (Ha : In a P).
    { destruct Hin as [->|Hin]; [|exact Hin].
      assert (Span_eqb a a = true) by now apply Span_eqb_eq.
      congruence. }
    destruct (IH Ha) as (P' & Hr & Hp).
    exists (c :: P'). split; [cbn; now rewrite Hr|].
    rewrite Hp. apply perm_swap.
Qed.

(** Releasing, one by one, blocks that make up the first part of the live
    list leaves the rest of it. *)
Lemma release_all (l : list Span) : forall rem P,
  Permutation P rem ->
  fold_left (fun lv b => remove_block b lv) rem (P ++ l) = l.
Proof.
  induction rem as [|a rem IH]; intros P HP.
  - apply Permutation_sym, Permutation_nil in HP. now subst P.
  - cbn [fold_left].
    assert (Ha : In a P)
      by (eapply Permutation_in; [apply Permutation_sym; exact HP|now left]).
    destruct (remove_block_among a l P Ha) as (P' & Hr & Hp).
    rewrite Hr. apply IH.
    eapply Permutation_cons_inv.
    rewrite <- Hp. exact HP.
Qed.

(** What a completed run of the three phases leaves live: the planned
    blocks, on top of what was live before. *)
Lemma load_and_execute_live model_path s planned :
  outcome (load_and_execute model_path s) = inl planned ->
  live (final (load_and_execute model_path s)) = rev planned ++ live s.
Proof.
  intros Ho.
  pose proof (load_and_execute_phases model_path s) as Hp. cbv zeta in Hp.
  destruct (outcome (resolve_method model_path s))
    as [[[program name] meta]|e1];
    [|destruct Hp as (Hp & _); rewrite Ho in Hp; discriminate Hp].
  destruct (outcome (assemble_memory_manager meta s)) as [[bufs mm]|e2]
    eqn:Ha; [|destruct Hp as (Hp & _); rewrite Ho in Hp; discriminate Hp].
  destruct Hp as (Hp & Hf & _). rewrite Ho in Hp.
  destruct (outcome (run_method program name mm _)) as [u|e3];
    [|discriminate Hp].
  injection Hp as ->. rewrite Hf, run_method_final.
  destruct (assemble_memory_manager_built _ _ _ _ Ha) as (Hb & _).
  exact (built_live _ _ _ _ _ Hb).
Qed.

(** X7.  A cycle that runs to its end gives back every planned buffer it
    allocated: the heap blocks live after the cycle are those live before
    it, so repeated cycles do not pile up planned buffers. *)
Theorem completed_cycle_restores_heap (c : Cycle) (s : State) :
  cycle_completes c s -> live (cycle_final c s) = live s.
Proof.
  intros Hc.
  assert (Hl : loads_a_model c).
  { destruct c as [argv model_path prof_result_path|this jinputs];
      [|exact I].
    destruct (Nat.eq_dec (List.length argv) 1) as [E|E]; [exact E|].
    exfalso. cbn in Hc. unfold main, bind, emit in Hc. cbn in Hc.
    destruct (Z.of_nat (List.length argv) =? 1) eqn:Hargc;
      [apply Z.eqb_eq in Hargc; lia|].
    discriminate Hc. }
  destruct (cycle_frame c Hl) as (pre & post & _ & _ & _ & _ & H).
  specialize (H s).
  destruct (outcome (load_and_execute (cycle_path c) s)) as [planned|e0]
    eqn:Ho; [|destruct H as (_ & Hn & _); contradiction].
  destruct H as (_ & H).
  destruct (profile_write_fails c); [destruct H as (Hn & _); contradiction|].
  destruct H as (_ & _ & Hf). rewrite Hf.
  unfold release. cbn [final live].
  rewrite (load_and_execute_live _ _ _ Ho).
  apply release_all. apply Permutation_sym, Permutation_rev.
Qed.

(** X8.  Building the planned buffers leaves alone what was there before:
    after a completed assembly every byte of the static pool and every
    byte of a block that was live before is as it was, and every block
    that was live before is still live. *)
Theorem assembly_preserves_pool_and_live_blocks
        (meta : MethodMeta) (s : State) planned_buffers memory_manager :
  outcome (assemble_memory_manager meta s)
  = inl (planned_buffers, memory_manager) ->
  let s' := final (assemble_memory_manager meta s) in
  (forall x, in_span pool_span x -> memory s' x = memory s x) /\
  (forall b x, In b (live s) -> in_span b x -> memory s' x = memory s x) /\
  (forall b, In b (live s) -> In b (live s')).
Proof.
  intros H s'.
  destruct (assemble_memory_manager_built _ _ _ _ H) as (Hb & _).
  fold s' in Hb.
  destruct (built_fresh _ _ _ _ _ Hb) as [Hf _].
  rewrite Forall_forall in Hf.
  split; [|split].
  - intros x Hx. apply (built_memory_frame _ _ _ _ _ Hb).
    intros region Hin Hr. destruct (Hf region Hin) as [Hd _].
    exact (Hd x Hr Hx).
  - intros b x Hbl Hx. apply (built_memory_frame _ _ _ _ _ Hb).
    intros region Hin Hr. destruct (Hf region Hin) as [_ Hd].
    exact (Hd b Hbl x Hr Hx).
  - intros b Hbl. rewrite (built_live _ _ _ _ _ Hb).
    apply in_or_app. now right.
Qed.

(** The size a log line of the loop shows is the declared size of its id,
    converted to [size_t]: the size the block is asked for with. *)
Lemma planned_loop_logged_sizes meta :
  forall todo id bufs spans s i n,
    In (ET_LOG Info (Msg_setting_up i n))
       (events (planned_loop meta todo id bufs spans s)) ->
    exists sz, memory_planned_buffer_size meta i = Ok sz /\ n = to_size_t sz.
Proof.
  induction todo as [|todo IH]; intros id bufs spans s i n Hin;
    [destruct Hin|].
  cbn [planned_loop] in Hin.
  destruct (memory_planned_buffer_size meta id) as [sz|err] eqn:Hsz;
    [|destruct Hin].
  unfold bind, get, ret, emit, make_unique in Hin. cbn in Hin.
  destruct (operator_new (live s) (to_size_t sz)) as [p|]; cbn in Hin.
  - destruct Hin as [E|Hin]; [|eapply IH; exact Hin].
    injection E as <- <-. now exists sz.
  - destruct Hin as [E|[]]. injection E as <- <-. now exists sz.
Qed.

(** X9.  A negative declared size is never served.  Because of
    [static_cast<size_t>] a declared size [sz] below 0 is asked for as
    [sz + 2^64] bytes, which is what the log line of its id shows; that is
    above [PTRDIFF_MAX], so [operator new[]] refuses it, and an assembly
    for metadata with such a size below the number of buffers never
    completes: it stops on the refused allocation, or earlier. *)
Theorem negative_size_is_refused (meta : MethodMeta) (s : State) id sz :
  operator_new_bounded ->
  0 <= id < num_memory_planned_buffers meta ->
  memory_planned_buffer_size meta id = Ok sz ->
  - 2 ^ 63 <= sz < 0 ->
  (exists e,
      outcome (assemble_memory_manager meta s) = inr e /\
      (e = bad_alloc \/
       exists id', 0 <= id' < num_memory_planned_buffers meta /\
                   is_ok (memory_planned_buffer_size meta id') = false /\
                   e = FailedResultAccess (At_buffer_size id'))) /\
  (forall n,
      In (ET_LOG Info (Msg_setting_up id n))
         (events (assemble_memory_manager meta s)) ->
      n = sz + 2 ^ 64 /\ PTRDIFF_MAX < n).
Proof.
  intros Hbound Hid Hsz Hneg.
  assert (Hwrap : to_size_t sz = sz + 2 ^ 64).
  { unfold to_size_t, size_t_modulus.
    symmetry. apply Z.mod_unique with (q := -1); lia. }
  split.
  - destruct (outcome (assemble_memory_manager meta s)) as [[bufs mm]|e]
      eqn:Ho.
    + exfalso.
      destruct (assemble_memory_manager_built _ _ _ _ Ho)
        as (Hb & _ & _ & Hlen & _).
      destruct (nth_error (ha_buffers (planned_memory mm)) (Z.to_nat id))
        as [region|] eqn:Hn; [|apply nth_error_None in Hn; lia].
      destruct (built_sizes _ _ _ _ _ Hb _ _ Hn) as (sz' & Hsz' & Hs).
      rewrite Z.add_0_l, Z2Nat.id in Hsz' by lia.
      rewrite Hsz in Hsz'. injection Hsz' as <-.
      pose proof (built_served _ _ _ _ _ Hb Hbound) as Hserved.
      rewrite Forall_forall in Hserved.
      specialize (Hserved region (nth_error_In _ _ Hn)).
      unfold PTRDIFF_MAX in Hserved. lia.
    + exists e. split; [reflexivity|].
      now apply assemble_memory_manager_stops in Ho.
  - intros n Hin.
    assert (Hl : exists sz', memory_planned_buffer_size meta id = Ok sz' /\
                             n = to_size_t sz').
    { unfold assemble_memory_manager in Hin. rewrite events_bind in Hin.
      destruct (outcome (planned_loop meta _ 0 [] [] s)) as [[b sp]|e];
        [cbn in Hin; rewrite app_nil_r in Hin|];
        eapply planned_loop_logged_sizes; exact Hin. }
    destruct Hl as (sz' & Hsz' & ->). rewrite Hsz in Hsz'.
    injection Hsz' as <-. rewrite Hwrap. unfold PTRDIFF_MAX. lia.
Qed.

(** ** The peers of the JNI binding *)

Lemma forward_first_event (this : PytorchJni) (jinputs : list JEValue) s :
  exists t,
    events (forward this jinputs s)
    = Call_FileDataLoader_from (model_path_ this) :: t.
Proof.
  assert (H1 : exists t1,
             events (resolve_method (model_path_ this) s)
             = Call_FileDataLoader_from (model_path_ this) :: t1).
  { unfold resolve_method. rewrite events_bind.
    cbn [emit outcome final events app]. eexists. reflexivity. }
  destruct H1 as (t1 & H1).
  assert (H2 : exists t2,
             events (load_and_execute (model_path_ this) s)
             = Call_FileDataLoader_from (model_path_ this) :: t2).
  { pose proof (load_and_execute_phases (model_path_ this) s) as Hp.
    cbv zeta in Hp.
    destruct (outcome (resolve_method (model_path_ this) s))
      as [[[program name] meta]|e1].
    - destruct (outcome (assemble_memory_manager meta s))
        as [[bufs mm]|e2].
      + destruct Hp as (_ & _ & ->). rewrite H1. eexists. reflexivity.
      + destruct Hp as (_ & ->). rewrite H1. eexists. reflexivity.
    - destruct Hp as (_ & ->). rewrite H1. eexists. reflexivity. }
  destruct H2 as (t2 & H2).
  unfold forward. rewrite events_unwinding, events_bind, H2.
  destruct (outcome (load_and_execute (model_path_ this) s));
    eexists; reflexivity.
Qed.

(** X10.  A call of [forward] starts by loading the file at the path its
    peer holds.  For a peer made from a path that is the path, whatever
    the extra files; a peer made from an Android asset holds the empty
    path, whatever the asset, so its calls load the file at the empty
    path; and such a peer is made only when the asset manager, the asset
    and its buffer are all there. *)
Theorem forward_loads_from_the_peer_path
        {JObject AAssetManager AAsset Buffer : Type}
        (AAssetManager_fromJava : JObject -> option AAssetManager)
        (AAssetManager_open : AAssetManager -> string -> option AAsset)
        (AAsset_getBuffer : AAsset -> option Buffer) :
  (forall modelPath extraFiles jinputs s,
      exists t,
        events (forward (PytorchJni_new modelPath extraFiles) jinputs s)
        = Call_FileDataLoader_from modelPath :: t) /\
  (forall assetName assetManager this,
      PytorchJni_new_asset AAssetManager_fromJava AAssetManager_open
                           AAsset_getBuffer assetName assetManager
      = inl this ->
      (exists mgr asset buffer,
          AAssetManager_fromJava assetManager = Some mgr /\
          AAssetManager_open mgr assetName = Some asset /\
          AAsset_getBuffer asset = Some buffer) /\
      forall jinputs s,
        exists t,
          events (forward this jinputs s)
          = Call_FileDataLoader_from "" :: t).
Proof.
  split.
  - intros modelPath extraFiles jinputs s.
    exact (forward_first_event (PytorchJni_new modelPath extraFiles)
                               jinputs s).
  - intros assetName assetManager this. unfold PytorchJni_new_asset.
    destruct (AAssetManager_fromJava assetManager) as [mgr|] eqn:Hm;
      [|discriminate].
    destruct (AAssetManager_open mgr assetName) as [asset|] eqn:Ha;
      [|discriminate].
    destruct (AAsset_getBuffer asset) as [buffer|] eqn:Hb; [|discriminate].
    intros H. injection H as <-. split.
    + exists mgr, asset, buffer. repeat split; assumption.
    + intros jinputs s.
      exact (forward_first_event (mkPytorchJni "") jinputs s).
Qed.

(** ** The order of the phases, and what the ending depends on *)

(** X11.  The events of a cycle come phase by phase: the frame's opening,
    then loading and resolving, then the setting up of the planned
    buffers, then binding and running the method, then the frame's
    closing.  So every planned buffer is set up after the metadata is
    there and before the method is bound, and none while it runs. *)
Theorem cycle_phases_in_order (c : Cycle) (s : State) :
  exists pre t1 t2 t3 post,
    cycle_events c s = pre ++ t1 ++ t2 ++ t3 ++ post /\
    Forall (fun e => phase_of e = Framing) pre /\
    Forall (fun e => phase_of e = Resolving) t1 /\
    Forall (fun e => phase_of e = Sizing) t2 /\
    Forall (fun e => phase_of e = Running) t3 /\
    Forall (fun e => phase_of e = Framing) post.
Proof.
  assert (Hcases : loads_a_model c \/
                   Forall (fun e => phase_of e = Framing) (cycle_events c s)).
  { destruct c as [argv model_path prof_result_path|this jinputs];
      [|now left].
    destruct (Nat.eq_dec (List.length argv) 1) as [E|E]; [now left|].
    right. cbn. unfold main, bind, emit. cbn.
    destruct (Z.of_nat (List.length argv) =? 1) eqn:Hargc;
      [apply Z.eqb_eq in Hargc; lia|].
    cbn. repeat constructor. }
  destruct Hcases as [Hl|Hf].
  2:{ exists (cycle_events c s), [], [], [], [].
      rewrite !app_nil_r. repeat split; try constructor. exact Hf. }
  destruct (cycle_frame c Hl) as (pre & post & Hpre & Hpost & _ & _ & H).
  specialize (H s).
  pose proof (load_and_execute_phases (cycle_path c) s) as Hp.
  cbv zeta in Hp.
  pose proof (resolve_method_phase (cycle_path c) s) as H1.
  destruct (outcome (resolve_method (cycle_path c) s))
    as [[[program name] meta]|e1].
  - pose proof (assemble_memory_manager_phase meta s) as H2.
    destruct (outcome (assemble_memory_manager meta s)) as [[bufs mm]|e2].
    + pose proof (run_method_phase program name mm
                    (final (assemble_memory_manager meta s))) as H3.
      destruct Hp as (_ & _ & Hev).
      destruct (outcome (load_and_execute (cycle_path c) s));
        destruct H as (He & _).
      * exists pre, (events (resolve_method (cycle_path c) s)),
          (events (assemble_memory_manager meta s)),
          (events (run_method program name mm
                              (final (assemble_memory_manager meta s)))),
          post.
        rewrite He, Hev, <- !app_assoc. now repeat split.
      * exists pre, (events (resolve_method (cycle_path c) s)),
          (events (assemble_memory_manager meta s)),
          (events (run_method program name mm
                              (final (assemble_memory_manager meta s)))),
          [].
        rewrite He, Hev, app_nil_r.
        repeat split; try assumption. constructor.
    + destruct Hp as (Ho & Hev). rewrite Ho in H. destruct H as (He & _).
      exists pre, (events (resolve_method (cycle_path c) s)),
        (events (assemble_memory_manager meta s)), [], [].
      rewrite He, Hev, !app_nil_r.
      repeat split; try assumption; constructor.
  - destruct Hp as (Ho & Hev). rewrite Ho in H. destruct H as (He & _).
    exists pre, (events (resolve_method (cycle_path c) s)), [], [], [].
    rewrite He, Hev, !app_nil_r.
    repeat split; try assumption; constructor.
Qed.


(** ** Construction steps that fail *)

(** A cycle whose load/execute part stops ends with that stop, having
    shown what it does before it loads its model and the events of that
    part. *)
Lemma cycle_stopped (c : Cycle) (s : State) e :
  loads_a_model c ->
  outcome (load_and_execute (cycle_path c) s) = inr e ->
  cycle_stops c s e /\
  cycle_events c s
  = cycle_prefix c ++ events (load_and_execute (cycle_path c) s).
Proof.
  destruct c as [argv model_path prof_result_path|this jinputs];
    cbn [loads_a_model cycle_path cycle_stops cycle_events cycle_prefix];
    intros Hl Ho.
  - unfold main. rewrite outcome_bind, events_bind. cbn [emit outcome final events].
    rewrite Hl. cbn [List.length Z.of_nat Pos.of_succ_nat Z.eqb Pos.eqb negb].
    rewrite outcome_bind, events_bind, Ho. split; reflexivity.
  - unfold forward.
    rewrite outcome_unwinding, events_unwinding, outcome_bind, events_bind, Ho.
    split; reflexivity.
Qed.

(** C2.  A construction step that fails ends the run at that step, and
    no later step is made.  For a cycle that gets to load its model:
    a file that does not load, a program that does not parse, a program
    without a first method and a method without metadata each end the run
    with the events up to that step and no more, so that after a failed
    [Program::load] no method name is asked for and no method is bound;
    a planned buffer that cannot be set up ends the run before any memory
    manager exists, with no step of the method made, and a call of
    [forward] that ends on a refused allocation leaves live what was live
    before; a method that does not load ends the run right after the
    binding was tried, with no input filled, nothing executed and no
    output read. *)
Theorem failed_construction_stops_the_run (c : Cycle) (s : State) :
  loads_a_model c ->
  let path := cycle_path c in
  let t := cycle_events c s in
  (forall err,
      FileDataLoader_from rt path = Failed err ->
      cycle_stops c s (Aborted (Chk_loader err)) /\
      t = cycle_prefix c ++ [Call_FileDataLoader_from path]) /\
  (forall ld err,
      FileDataLoader_from rt path = Ok ld ->
      Program_load rt ld = Failed err ->
      cycle_stops c s (FailedResultAccess At_program) /\
      t = cycle_prefix c
          ++ [Call_FileDataLoader_from path; Call_Program_load;
              ET_LOG LogError (Msg_failed_to_parse path);
              ET_LOG Info (Msg_model_loaded path)] /\
      (forall index, ~ In (Call_get_method_name index) t) /\
      (forall name mm, ~ In (Call_load_method name mm) t)) /\
  (forall ld program err,
      FileDataLoader_from rt path = Ok ld ->
      Program_load rt ld = Ok program ->
      get_method_name rt program 0 = Failed err ->
      cycle_stops c s (Aborted Chk_no_methods) /\
      t = cycle_prefix c
          ++ [Call_FileDataLoader_from path; Call_Program_load;
              ET_LOG Info (Msg_model_loaded path);
              Call_get_method_name 0]) /\
  (forall ld program name err,
      FileDataLoader_from rt path = Ok ld ->
      Program_load rt ld = Ok program ->
      get_method_name rt program 0 = Ok name ->
      method_meta rt program name = Failed err ->
      cycle_stops c s (Aborted (Chk_method_meta name err)) /\
      t = cycle_prefix c
          ++ [Call_FileDataLoader_from path; Call_Program_load;
              ET_LOG Info (Msg_model_loaded path);
              Call_get_method_name 0;
              ET_LOG Info (Msg_using_method name);
              Call_method_meta name]) /\
  (forall program name meta e,
      resolved path program name meta ->
      outcome (assemble_memory_manager meta s) = inr e ->
      cycle_stops c s e /\
      t = cycle_prefix c ++ events (resolve_method path s)
          ++ events (assemble_memory_manager meta s) /\
      steps t = [] /\
      Forall (fun ev => manager_of ev = None) t /\
      (forall this jinputs,
          c = JNI this jinputs -> e = bad_alloc ->
          live (cycle_final c s) = live s)) /\
  (forall program name meta planned_buffers mm,
      resolved path program name meta ->
      outcome (assemble_memory_manager meta s) = inl (planned_buffers, mm) ->
      (forall m, ~ binds program name mm m) ->
      exists err,
        cycle_stops c s (Aborted (Chk_load_method name err)) /\
        t = cycle_prefix c ++ events (resolve_method path s)
            ++ events (assemble_memory_manager meta s)
            ++ [Call_load_method name mm] /\
        steps t = [Bound]).
Proof.
  intros Hl path t.
  assert (Hstop : forall e,
             outcome (load_and_execute path s) = inr e ->
             cycle_stops c s e /\
             t = cycle_prefix c ++ events (load_and_execute path s))
    by (intros e; apply cycle_stopped; exact Hl).
  assert (Epath : path = cycle_path c) by reflexivity.
  assert (Hfinal : forall this jinputs,
             c = JNI this jinputs ->
             outcome (load_and_execute path s) = inr bad_alloc ->
             live (cycle_final c s) = live s).
  { intros this jinputs -> Ho. cbn [cycle_final cycle_path] in *.
    unfold forward. rewrite final_unwinding, outcome_bind.
    subst path. rewrite Ho. reflexivity. }
  clearbody path t.
  pose proof (load_and_execute_phases path s) as Hp. cbv zeta in Hp.
  pose proof (resolve_method_outcome path s) as Hr.
  assert (Hpre : Forall (fun ev : Event EValue => step_of ev = None)
                        (cycle_prefix c))
    by (destruct c; repeat constructor).
  split; [|split; [|split; [|split; [|split]]]].
  - intros err Hld. rewrite Hld in Hr. rewrite Hr in Hp.
    destruct Hp as (Ho & Hev).
    destruct (Hstop _ Ho) as (Hs & Ht).
    split; [exact Hs|]. rewrite Ht, Hev.
    unfold resolve_method. rewrite Hld. reflexivity.
  - intros ld err Hld Hpl. rewrite Hld, Hpl in Hr. rewrite Hr in Hp.
    destruct Hp as (Ho & Hev).
    destruct (Hstop _ Ho) as (Hs & Ht).
    destruct (resolve_method_after_parse_failure path ld err s Hld Hpl)
      as (Hre & _).
    rewrite Hev, Hre in Ht.
    split; [exact Hs|]. split; [exact Ht|]. rewrite Ht.
    split.
    + intros index Hin. apply in_app_or in Hin.
      destruct Hin as [Hin|Hin].
      * destruct c; cbn in Hin; intuition discriminate.
      * cbn in Hin. intuition discriminate.
    + intros name mm Hin. apply in_app_or in Hin.
      destruct Hin as [Hin|Hin].
      * destruct c; cbn in Hin; intuition discriminate.
      * cbn in Hin. intuition discriminate.
  - intros ld program err Hld Hpl Hn. rewrite Hld, Hpl, Hn in Hr.
    rewrite Hr in Hp. destruct Hp as (Ho & Hev).
    destruct (Hstop _ Ho) as (Hs & Ht).
    split; [exact Hs|]. rewrite Ht, Hev.
    unfold resolve_method. rewrite Hld. cbn. rewrite Hpl. cbn.
    rewrite Hn. reflexivity.
  - intros ld program name err Hld Hpl Hn Hm.
    rewrite Hld, Hpl, Hn, Hm in Hr.
    rewrite Hr in Hp. destruct Hp as (Ho & Hev).
    destruct (Hstop _ Ho) as (Hs & Ht).
    split; [exact Hs|]. rewrite Ht, Hev.
    unfold resolve_method. rewrite Hld. cbn. rewrite Hpl. cbn.
    rewrite Hn. cbn. rewrite Hm. reflexivity.
  - intros program name meta e (ld & Hld & Hpl & Hn & Hm) Ha.
    rewrite Hld, Hpl, Hn, Hm in Hr. rewrite Hr, Ha in Hp.
    destruct Hp as (Ho & Hev).
    destruct (Hstop _ Ho) as (Hs & Ht).
    rewrite Hev in Ht.
    assert (Hq : Forall (fun ev : Event EValue => step_of ev = None) t).
    { rewrite Ht. apply Forall_app. split; [exact Hpre|].
      apply Forall_app. split;
        [apply resolve_method_quiet|apply assemble_memory_manager_quiet]. }
    destruct (quiet_events t Hq) as (Hsteps & _ & _ & Hmm).
    split; [exact Hs|]. split; [exact Ht|]. split; [exact Hsteps|].
    split; [exact Hmm|].
    intros this jinputs Hc He. subst e. now apply (Hfinal this jinputs).
  - intros program name meta bufs mm (ld & Hld & Hpl & Hn & Hm) Ha Hnb.
    rewrite Hld, Hpl, Hn, Hm in Hr. rewrite Hr, Ha in Hp.
    assert (Hrun : exists err,
               outcome (run_method program name mm
                                   (final (assemble_memory_manager meta s)))
               = inr (Aborted (Chk_load_method name err)) /\
               events (run_method program name mm
                                  (final (assemble_memory_manager meta s)))
               = [Call_load_method name mm]).
    { unfold run_method, load_method.
      destruct (serve_requests (method_allocator mm)
                               (load_method_requests rt program name))
        as [fits a] eqn:Hserve.
      destruct fits.
      - destruct (load_method_result rt program name) as [m|err] eqn:Hload.
        + exfalso. apply (Hnb m). split; [now rewrite Hserve|exact Hload].
        + exists err. cbn. split; reflexivity.
      - exists (MemoryAllocationFailed rt). cbn. split; reflexivity. }
    destruct Hrun as (err & Hro & Hre). rewrite Hro, Hre in Hp.
    destruct Hp as (Ho & _ & Hev).
    destruct (Hstop _ Ho) as (Hs & Ht).
    rewrite Hev in Ht.
    exists err.
    split; [exact Hs|]. split; [exact Ht|].
    rewrite Ht, !steps_app.
    rewrite (proj1 (quiet_events _ Hpre)).
    rewrite (proj1 (quiet_events _ (resolve_method_quiet path s))).
    rewrite (proj1 (quiet_events _ (assemble_memory_manager_quiet meta s))).
    reflexivity.
Qed.

End Runner.

(** * The runner on the concrete platform *)

Lemma fold_left_max_bounds (l : list Z) : forall acc,
  acc <= fold_left Z.max l acc /\
  forall x, In x l -> x <= fold_left Z.max l acc.
Proof.
  induction l as [|y l IH]; intros acc; cbn.
  - split; [lia|intros x []].
  - destruct (IH (Z.max acc y)) as [H1 H2]. split; [lia|].
    intros x [<-|Hin]; [lia|now apply H2].
Qed.

(** The bump allocation function keeps the promise of [operator new[]]
    when its heap starts after the static pool. *)
Lemma bump_new_fresh pool heap_base heap_limit :
  pool + sizeof_method_allocator_pool <= heap_base ->
  operator_new_fresh pool (bump_new heap_base heap_limit).
Proof.
  intros Hbase lv n p. unfold bump_new.
  destruct (fold_left_max_bounds (map span_end lv) heap_base) as [H1 H2].
  set (top := fold_left Z.max (map span_end lv) heap_base) in *.
  destruct (_ <=? heap_limit); [|discriminate].
  intros Hp. injection Hp as <-.
  unfold sizeof_method_allocator_pool in Hbase.
  split.
  - intros x [Hx1 Hx2] [Hy1 Hy2].
    cbn [pool_span span_data span_size] in *.
    unfold sizeof_method_allocator_pool in Hy2. lia.
  - intros b Hb x [Hx1 Hx2] [Hy1 Hy2].
    cbn [span_data span_size] in *.
    specialize (H2 (span_end b) (in_map span_end lv b Hb)).
    unfold span_end in H2. lia.
Qed.

Lemma demo_new_fresh : operator_new_fresh demo_pool demo_new.
Proof. apply bump_new_fresh. lia. Qed.

(** The bump allocation function serves no request larger than its
    heap. *)
Lemma bump_new_bounded heap_base heap_limit :
  heap_limit - heap_base <= PTRDIFF_MAX ->
  operator_new_bounded (bump_new heap_base heap_limit).
Proof.
  intros Hheap lv n p. unfold bump_new.
  destruct (fold_left_max_bounds (map span_end lv) heap_base) as [H1 _].
  set (top := fold_left Z.max (map span_end lv) heap_base) in *.
  destruct (top + n <=? heap_limit) eqn:E; [|discriminate].
  apply Z.leb_le in E. intros _. lia.
Qed.

Lemma demo_new_bounded : operator_new_bounded demo_new.
Proof.
  apply bump_new_bounded. apply Z.leb_le. reflexivity.
Qed.



(** On the concrete platform the second planned buffer starts at address
    4199424: memory held [0xff] there before the assembly and holds zero
    after it. *)
Lemma planned_buffers_start_zeroed_witness :
  memory demo_state 4199424 = Byte.xff /\
  memory (final (assemble_memory_manager (EValue := Z) demo_pool demo_new
                                         demo_meta demo_state))
         4199424
  = Byte.x00.
Proof.
  split; [reflexivity|].
  assert (Ho : outcome (assemble_memory_manager (EValue := Z) demo_pool
                          demo_new demo_meta demo_state)
               = inl ([4198400; 4199424],
                      mkMemoryManager
                        (mkMemoryAllocator 4194304 demo_pool 0
                                           (Some "method allocator"%string))
                        (mkHierarchicalAllocator
                           [mkSpan 4198400 1024; mkSpan 4199424 2048])))
    by (vm_compute; reflexivity).
  apply (planned_buffers_start_zeroed (EValue := Z) demo_pool demo_new
           demo_new_fresh demo_meta demo_state _ _ Ho 1%nat
           (mkSpan 4199424 2048)).
  - reflexivity.
  - unfold in_span. cbn. lia.
Defined.

(** A write at byte 16 of the arena leaves the first byte of the first
    planned buffer as it was. *)
Lemma arena_and_planned_buffers_isolated_witness :
  store_all (memory demo_state) [(demo_pool + 16, Byte.x01)] 4198400
  = memory demo_state 4198400.
Proof.
  assert (Ho : outcome (assemble_memory_manager (EValue := Z) demo_pool
                          demo_new demo_meta demo_state)
               = inl ([4198400; 4199424],
                      mkMemoryManager
                        (mkMemoryAllocator 4194304 demo_pool 0
                                           (Some "method allocator"%string))
                        (mkHierarchicalAllocator
                           [mkSpan 4198400 1024; mkSpan 4199424 2048])))
    by (vm_compute; reflexivity).
  destruct (arena_and_planned_buffers_isolated (EValue := Z) demo_pool
              demo_new demo_new_fresh demo_meta demo_state _ _ Ho)
    as (_ & _ & H & _).
  apply (H (memory demo_state) [(demo_pool + 16, Byte.x01)])
    with (region := mkSpan 4198400 1024).
  - repeat constructor; vm_compute; congruence.
  - left. reflexivity.
  - unfold in_span. cbn. lia.
Defined.

(** The scenario of an arena of 16 bytes asked for 32: the request is
    refused with [OutOfArenaSpace] and the high-water mark stays 0. *)
Lemma arena_allocation_bounded_witness :
  nth_error (fst (allocate_seq (MemoryAllocator_new 16 0) [32])) 0
  = Some (inr OutOfArenaSpace) /\
  high_water_mark (snd (allocate_seq (MemoryAllocator_new 16 0) [])) = 0.
Proof.
  assert (Hpos : Forall (fun n => 0 <= n) [32])
    by (repeat constructor; lia).
  destruct (arena_allocation_bounded 16 0 [32] Hpos) as (_ & H & _).
  destruct (H [] 32 [] eq_refl) as (_ & _ & Hn & _ & Hw);
    [cbn; lia|].
  split; [exact Hn|exact Hw].
Defined.

(** A call of [forward] on the concrete platform executes the method with
    the method allocator on the pool at 4096, 4194304 bytes long. *)
Lemma metadata_arena_fixed_witness :
  exists e mm,
    In e (cycle_events demo_pool demo_new (demo_rt (Ok "program"%string) 7)
                       (JNI (mkPytorchJni "model.pte") [5]) demo_state) /\
    step_of e = Some Executed /\
    manager_of e = Some mm /\
    ma_base (method_allocator mm) = 4096 /\
    ma_size (method_allocator mm) = 4194304.
Proof.
  pose (mm := mkMemoryManager
                (mkMemoryAllocator 4194304 4096 192
                                   (Some "method allocator"%string))
                (mkHierarchicalAllocator
                   [mkSpan 4198400 1024; mkSpan 4199424 2048])).
  exists (Call_execute mm), mm.
  assert (Hin : In (Call_execute (EValue := Z) mm)
                   (cycle_events demo_pool demo_new
                                 (demo_rt (Ok "program"%string) 7)
                                 (JNI (mkPytorchJni "model.pte") [5])
                                 demo_state))
    by (vm_compute; tauto).
  destruct (metadata_arena_fixed demo_pool demo_new _ _ _ _ mm Hin eq_refl)
    as (Hb & Hs & _).
  repeat split; assumption.
Defined.

(** A call of [forward], and the same call again from the state the first
    one leaves, both with two planned buffers of 1024 and 2048 bytes and
    one output. *)
Lemma repeated_cycle_same_structure_witness :
  let rt := demo_rt (Ok "program"%string) 7 in
  let this := mkPytorchJni "model.pte" in
  let s1 := demo_state in
  let s2 := final (forward demo_pool demo_new rt this [5] s1) in
  planned_sizes (cycle_events demo_pool demo_new rt (JNI this [5]) s2)
  = planned_sizes (cycle_events demo_pool demo_new rt (JNI this [5]) s1) /\
  output_counts (cycle_events demo_pool demo_new rt (JNI this [5]) s2)
  = output_counts (cycle_events demo_pool demo_new rt (JNI this [5]) s1).
Proof.
  intros rt this s1 s2.
  destruct (repeated_cycle_same_structure demo_pool demo_new rt
              (JNI this [5]) s1 s2)
    as (_ & sizes & n & H1 & H2 & H3 & H4).
  - exists 0. vm_compute. reflexivity.
  - exists 0. vm_compute. reflexivity.
  - rewrite H1, H2, H3, H4. split; reflexivity.
Defined.

(** A call of [forward] that returns shows the four steps in order. *)
Lemma method_steps_in_order_witness :
  steps (cycle_events demo_pool demo_new (demo_rt (Ok "program"%string) 7)
                      (JNI (mkPytorchJni "model.pte") [5]) demo_state)
  = [Bound; InputsFilled; Executed; OutputsRead].
Proof.
  destruct (method_steps_in_order demo_pool demo_new
              (demo_rt (Ok "program"%string) 7)
              (JNI (mkPytorchJni "model.pte") [5]) demo_state)
    as (_ & H & _).
  apply H. exists 0. vm_compute. reflexivity.
Defined.

(** A run of [main] and a call of [forward] bind their method with method
    allocators on the same block. *)
Lemma load_cycles_share_the_pool_witness :
  let rt := demo_rt (Ok "program"%string) 7 in
  let planned :=
    mkHierarchicalAllocator [mkSpan 4198400 1024; mkSpan 4199424 2048] in
  let mm1 :=
    mkMemoryManager
      (mkMemoryAllocator 4194304 4096 0 (Some "method allocator"%string))
      planned in
  let mm2 :=
    mkMemoryManager
      (mkMemoryAllocator 4194304 4096 192 (Some "method allocator"%string))
      planned in
  In (Call_load_method "forward" mm1)
     (cycle_events demo_pool demo_new rt
                   (CLI ["executor_runner"%string] "model.pte"
                        "prof_result.bin")
                   demo_state) /\
  In (Call_execute mm2)
     (cycle_events demo_pool demo_new rt
                   (JNI (mkPytorchJni "model.pte") [5]) demo_state) /\
  arena_span (method_allocator mm1) = arena_span (method_allocator mm2).
Proof.
  intros rt planned mm1 mm2.
  assert (H1 : In (Call_load_method (EValue := Z) "forward" mm1)
                  (cycle_events demo_pool demo_new rt
                                (CLI (JEValue := Z)
                                     ["executor_runner"%string] "model.pte"
                                     "prof_result.bin")
                                demo_state))
    by (vm_compute; tauto).
  assert (H2 : In (Call_execute (EValue := Z) mm2)
                  (cycle_events demo_pool demo_new rt
                                (JNI (mkPytorchJni "model.pte") [5])
                                demo_state))
    by (vm_compute; tauto).
  split; [exact H1|]. split; [exact H2|].
  exact (proj1 (load_cycles_share_the_pool demo_pool demo_new rt _ _ _ _
                  _ mm1 _ mm2 H1 eq_refl H2 eq_refl)).
Defined.

(** A call of [forward] with the inputs [5] and one with the inputs [6]
    are the same run, and it returns what [optionalNull] gives. *)
Lemma forward_runs_the_flow_and_returns_optionalNull_witness :
  let rt := demo_rt (Ok "program"%string) 7 in
  let this := mkPytorchJni "model.pte" in
  forward demo_pool demo_new rt this [6] demo_state
  = forward demo_pool demo_new rt this [5] demo_state /\
  outcome (forward demo_pool demo_new rt this [5] demo_state)
  = inl (jMethodOptionalNull rt).
Proof.
  intros rt this.
  destruct (forward_runs_the_flow_and_returns_optionalNull
              demo_pool demo_new rt this [5] demo_state) as (H1 & H2 & _).
  split; [apply H1|].
  rewrite <- (H2 0); vm_compute; reflexivity.
Defined.

(** C8 does not hold of [forward] as it stands.  Two calls, one on a
    method whose output is 7 with the inputs [5], one on a method whose
    output is 8 with the inputs [6], both return the value of
    [optionalNull]: what [forward] returns does not carry the outputs, so
    no way of reading a Java [EValue] back gives the outputs of every
    call. *)
Lemma forward_does_not_marshal_outputs :
  let this := mkPytorchJni "model.pte" in
  let r7 := forward demo_pool demo_new (demo_rt (Ok "program"%string) 7)
                    this [5] demo_state in
  let r8 := forward demo_pool demo_new (demo_rt (Ok "program"%string) 8)
                    this [6] demo_state in
  printed_outputs (events r7) = [7] /\ outcome r7 = inl 0 /\
  printed_outputs (events r8) = [8] /\ outcome r8 = inl 0 /\
  ~ (exists unmarshal : Z -> list Z,
        forall (rt : Runtime string string string Z Z) this jinputs s v,
          outcome (forward demo_pool demo_new rt this jinputs s) = inl v ->
          unmarshal v
          = printed_outputs
              (events (forward demo_pool demo_new rt this jinputs s))).
Proof.
  intros this r7 r8.
  assert (H7 : printed_outputs (events r7) = [7]) by (vm_compute; reflexivity).
  assert (O7 : outcome r7 = inl 0) by (vm_compute; reflexivity).
  assert (H8 : printed_outputs (events r8) = [8]) by (vm_compute; reflexivity).
  assert (O8 : outcome r8 = inl 0) by (vm_compute; reflexivity).
  repeat split; try assumption.
  intros [unmarshal H].
  pose proof (H (demo_rt (Ok "program"%string) 7) this [5] demo_state 0 O7)
    as E7.
  pose proof (H (demo_rt (Ok "program"%string) 8) this [6] demo_state 0 O8)
    as E8.
  fold r7 in E7. fold r8 in E8. rewrite H7 in E7. rewrite H8 in E8.
  rewrite E7 in E8. discriminate E8.
Qed.

(** A program that fails to parse: a call of [forward] ends where the
    value of the failed result is taken, after the two log lines, and
    shows nothing else. *)
Lemma failed_construction_stops_the_run_witness :
  let rt := demo_rt (Failed 35) 7 in
  let c := JNI (mkPytorchJni "model.pte") [5] in
  cycle_stops demo_pool demo_new rt c demo_state
              (FailedResultAccess At_program) /\
  cycle_events demo_pool demo_new rt c demo_state
  = [Call_FileDataLoader_from "model.pte"; Call_Program_load;
     ET_LOG LogError (Msg_failed_to_parse "model.pte");
     ET_LOG Info (Msg_model_loaded "model.pte")].
Proof.
  intros rt c.
  destruct (failed_construction_stops_the_run demo_pool demo_new rt c
              demo_state I) as (_ & H & _).
  destruct (H "model.pte"%string 35 eq_refl eq_refl) as (Hs & Ht & _).
  split; [exact Hs|exact Ht].
Defined.

(** ** Scenarios *)

(** Three planned buffers announced, sizes given for ids 0 and 1 only: the
    assembly stops where the size of id 2 is taken, and no memory manager
    comes out of it. *)
Example assemble_stops_on_missing_size :
  outcome (assemble_memory_manager
             (EValue := Z) demo_pool demo_new
             (mkMethodMeta 3 (memory_planned_buffer_size demo_meta))
             demo_state)
  = inr (FailedResultAccess (At_buffer_size 2)).
Proof. reflexivity. Qed.

(** A heap that ends before the second planned buffer fits: the assembly
    stops with [bad_alloc]. *)
Example assemble_stops_on_bad_alloc :
  outcome (assemble_memory_manager
             (EValue := Z) demo_pool
             (bump_new (demo_pool + sizeof_method_allocator_pool)
                       (demo_pool + sizeof_method_allocator_pool + 2048))
             demo_meta demo_state)
  = inr bad_alloc.
Proof. reflexivity. Qed.

(** A program that fails to parse, in [main]: the failure is logged, the
    model is logged as loaded, and the run ends where the value of the
    failed result is taken. *)
Example main_stops_on_a_program_that_fails_to_parse :
  let r := main demo_pool demo_new (demo_rt (Failed 35) 7)
                ["executor_runner"%string] "model.pte" "prof_result.bin"
                demo_state in
  events r
  = [Call_runtime_init; Call_FileDataLoader_from "model.pte";
     Call_Program_load;
     ET_LOG LogError (Msg_failed_to_parse "model.pte");
     ET_LOG Info (Msg_model_loaded "model.pte")] /\
  outcome r = inr (FailedResultAccess At_program).
Proof. vm_compute. split; reflexivity. Qed.

(** Extra arguments on the command line: [main] logs them and returns 1
    without loading anything. *)
Example main_rejects_extra_arguments :
  let r := main demo_pool demo_new (demo_rt (Ok "program"%string) 7)
                ["executor_runner"; "x"; "y"]%string
                "model.pte" "prof_result.bin" demo_state in
  outcome r = inl 1 /\
  events r
  = [Call_runtime_init;
     ET_LOG LogError (Msg_extra_args "Extra commandline args: x y")].
Proof. vm_compute. split; reflexivity. Qed.

(** A method whose load asks the method allocator for more than the pool
    holds: the load fails and the run is aborted before any input is
    filled. *)
Example main_aborts_when_the_arena_is_too_small :
  let rt :=
    mkRuntime string string string Z Z
      (FileDataLoader_from (demo_rt (Ok "program"%string) 7))
      (Program_load (demo_rt (Ok "program"%string) 7))
      (get_method_name (demo_rt (Ok "program"%string) 7))
      (method_meta (demo_rt (Ok "program"%string) 7))
      (fun _ _ => [4194304; 1])
      (fun _ name => Ok name)
      33
      (fun _ => Error_Ok) (fun _ => 1) (fun _ _ => Error_Ok) (fun _ _ => 7)
      [] (fun _ => true) 0 in
  let r := main demo_pool demo_new rt ["executor_runner"%string]
                "model.pte" "prof_result.bin" demo_state in
  outcome r = inr (Aborted (Chk_load_method "forward" 33)) /\
  steps (events r) = [Bound].
Proof. vm_compute. split; reflexivity. Qed.

(** ** The further properties on the concrete platform *)

(** Two arguments left over: one error line naming them, and 1. *)
Lemma main_extra_arguments_rejected_witness :
  main demo_pool demo_new (demo_rt (Ok "program"%string) 7)
       ["executor_runner"; "x"; "y"]%string "model.pte" "prof_result.bin"
       demo_state
  = mkRun (inl 1) demo_state
          [Call_runtime_init;
           ET_LOG LogError (Msg_extra_args "Extra commandline args: x y")].
Proof.
  apply (main_extra_arguments_rejected
           demo_pool demo_new (demo_rt (Ok "program"%string) 7)
           ["executor_runner"; "x"; "y"]%string "model.pte"
           "prof_result.bin" demo_state).
  cbn. lia.
Defined.

(** The method a call of [forward] binds is ["forward"], the first method
    of the program in ["model.pte"]. *)
Lemma bound_method_is_first_method_witness :
  exists program meta,
    resolved (demo_rt (Ok "program"%string) 7) "model.pte" program
             "forward" meta /\
    num_memory_planned_buffers meta = 2.
Proof.
  pose (mm := mkMemoryManager
                (mkMemoryAllocator 4194304 4096 0
                                   (Some "method allocator"%string))
                (mkHierarchicalAllocator
                   [mkSpan 4198400 1024; mkSpan 4199424 2048])).
  assert (Hin : In (Call_load_method (EValue := Z) "forward" mm)
                   (cycle_events demo_pool demo_new
                                 (demo_rt (Ok "program"%string) 7)
                                 (JNI (mkPytorchJni "model.pte") [5])
                                 demo_state))
    by (vm_compute; tauto).
  destruct (bound_method_is_first_method _ _ _ _ _ _ _ Hin)
    as (program & meta & Hr & _).
  exists program, meta. split; [exact Hr|].
  destruct Hr as (ld & _ & _ & _ & Hm). cbn in Hm. now injection Hm as <-.
Defined.



(** A call of [forward] that returns prints the one output of the method. *)
Lemma completed_cycle_prints_outputs_witness :
  exists m : string,
    printed_lines
      (cycle_events demo_pool demo_new (demo_rt (Ok "program"%string) 7)
                    (JNI (mkPytorchJni "model.pte") [5]) demo_state)
    = outputs_of (demo_rt (Ok "program"%string) 7) m /\
    outputs_of (demo_rt (Ok "program"%string) 7) m = [(0, 7)].
Proof.
  destruct (completed_cycle_prints_outputs demo_pool demo_new
              (demo_rt (Ok "program"%string) 7)
              (JNI (mkPytorchJni "model.pte") [5]) demo_state)
    as (program & name & meta & mm & m & _ & _ & _ & _ & Hp).
  - exists 0. vm_compute. reflexivity.
  - exists m. split; [exact Hp|reflexivity].
Defined.

(** A run of [main] with one byte of profile and a profile path that does
    not open never gets to its end and frees no inputs. *)
Lemma profile_written_at_the_end_only_witness :
  let rt :=
    mkRuntime string string string Z Z
      (FileDataLoader_from (demo_rt (Ok "program"%string) 7))
      (Program_load (demo_rt (Ok "program"%string) 7))
      (get_method_name (demo_rt (Ok "program"%string) 7))
      (method_meta (demo_rt (Ok "program"%string) 7))
      (fun _ _ => [64; 128])
      (fun _ name => Ok name)
      33
      (fun _ => Error_Ok) (fun _ => 1) (fun _ _ => Error_Ok) (fun _ _ => 7)
      [Byte.x01] (fopen (demo_rt (Ok "program"%string) 7)) 0 in
  let c := CLI ["executor_runner"%string] "model.pte"
               "/nonexistent/prof_result.bin" in
  ~ cycle_completes demo_pool demo_new rt c demo_state /\
  ~ In Call_FreeInputs (cycle_events demo_pool demo_new rt c demo_state).
Proof.
  intros rt c.
  pose proof (profile_written_at_the_end_only
                demo_pool demo_new rt
                (CLI (JEValue := Z) ["executor_runner"%string] "model.pte"
                     "/nonexistent/prof_result.bin")
                demo_state) as H.
  cbv beta iota in H. destruct H as (_ & _ & H).
  apply H; [discriminate|reflexivity].
Defined.

(** The same run with a profile path that opens writes the byte there and
    returns 0; with the path that does not open it ends on the null
    stream, right after the profile dump began. *)
Example main_profile_written_or_not :
  let rt :=
    mkRuntime string string string Z Z
      (FileDataLoader_from (demo_rt (Ok "program"%string) 7))
      (Program_load (demo_rt (Ok "program"%string) 7))
      (get_method_name (demo_rt (Ok "program"%string) 7))
      (method_meta (demo_rt (Ok "program"%string) 7))
      (fun _ _ => [64; 128])
      (fun _ name => Ok name)
      33
      (fun _ => Error_Ok) (fun _ => 1) (fun _ _ => Error_Ok) (fun _ _ => 7)
      [Byte.x01] (fopen (demo_rt (Ok "program"%string) 7)) 0 in
  let good := main demo_pool demo_new rt ["executor_runner"%string]
                   "model.pte" "prof_result.bin" demo_state in
  let bad := main demo_pool demo_new rt ["executor_runner"%string]
                  "model.pte" "/nonexistent/prof_result.bin" demo_state in
  outcome good = inl 0 /\
  written_files (events good) = [("prof_result.bin"%string, [Byte.x01])] /\
  outcome bad = inr (NullStream "/nonexistent/prof_result.bin") /\
  written_files (events bad) = [] /\
  last (events bad) Call_runtime_init = Call_DUMP_PROFILE_RESULTS.
Proof. vm_compute. repeat split. Qed.

(** After a call of [forward] that returns nothing is live that was not
    live before. *)
Lemma completed_cycle_restores_heap_witness :
  live (cycle_final demo_pool demo_new (demo_rt (Ok "program"%string) 7)
                    (JNI (mkPytorchJni "model.pte") [5])
                    (mkState (memory demo_state) [mkSpan 4198400 16]))
  = [mkSpan 4198400 16].
Proof.
  apply (completed_cycle_restores_heap
           demo_pool demo_new (demo_rt (Ok "program"%string) 7)
           (JNI (mkPytorchJni "model.pte") [5])
           (mkState (memory demo_state) [mkSpan 4198400 16])).
  exists 0. vm_compute. reflexivity.
Defined.

(** The first byte of the static pool is as it was after the planned
    buffers are built. *)
Lemma assembly_preserves_pool_and_live_blocks_witness :
  memory (final (assemble_memory_manager (EValue := Z) demo_pool demo_new
                                         demo_meta demo_state))
         demo_pool
  = Byte.xff.
Proof.
  assert (Ho : outcome (assemble_memory_manager (EValue := Z) demo_pool
                          demo_new demo_meta demo_state)
               = inl ([4198400; 4199424],
                      mkMemoryManager
                        (mkMemoryAllocator 4194304 demo_pool 0
                                           (Some "method allocator"%string))
                        (mkHierarchicalAllocator
                           [mkSpan 4198400 1024; mkSpan 4199424 2048])))
    by (vm_compute; reflexivity).
  destruct (assembly_preserves_pool_and_live_blocks (EValue := Z) demo_pool
              demo_new demo_new_fresh demo_meta demo_state _ _ Ho)
    as (H & _).
  rewrite H; [reflexivity|].
  unfold in_span. vm_compute. split; [discriminate|reflexivity].
Defined.

(** A declared size of -1 is asked for as [2^64 - 1] bytes and refused:
    the assembly ends with [bad_alloc]. *)
Lemma negative_size_is_refused_witness :
  let meta := mkMethodMeta 1 (fun _ => Ok (-1)) in
  let r := assemble_memory_manager (EValue := Z) demo_pool demo_new meta
                                   demo_state in
  outcome r = inr bad_alloc /\
  events r = [ET_LOG Info (Msg_setting_up 0 18446744073709551615)].
Proof.
  intros meta r.
  assert (Hev : events r
                = [ET_LOG Info (Msg_setting_up 0 18446744073709551615)])
    by (vm_compute; reflexivity).
  split; [|exact Hev].
  destruct (negative_size_is_refused (EValue := Z) demo_pool demo_new meta
              demo_state 0 (-1) demo_new_bounded)
    as ((e & Ho & [He|(id' & _ & Hk & _)]) & _);
    [cbn; lia|reflexivity|lia| |discriminate Hk].
  fold r in Ho. rewrite Ho, He. reflexivity.
Defined.

(** A peer made from the asset ["model.pte"] loads the file at the empty
    path. *)
Lemma forward_loads_from_the_peer_path_witness :
  exists this t,
    PytorchJni_new_asset (fun _ : unit => Some tt)
                         (fun (_ : unit) (_ : string) => Some tt)
                         (fun _ : unit => Some tt) "model.pte" tt
    = inl this /\
    events (forward demo_pool demo_new (demo_rt (Ok "program"%string) 7)
                    this [5] demo_state)
    = Call_FileDataLoader_from "" :: t.
Proof.
  destruct (forward_loads_from_the_peer_path
              demo_pool demo_new (demo_rt (Ok "program"%string) 7)
              (fun _ : unit => Some tt)
              (fun (_ : unit) (_ : string) => Some tt)
              (fun _ : unit => Some tt)) as [_ H].
  destruct (H "model.pte"%string tt (mkPytorchJni "") eq_refl) as [_ Ht].
  destruct (Ht [5] demo_state) as (t & E).
  exists (mkPytorchJni ""), t. split; [reflexivity|exact E].
Defined.
